(** * Ron: the command classifier, the dispatcher and the session loop

    A shallow embedding of [Ron-ai.py]: the string primitives the program
    relies on ([str.lower], [in], [str.split], [str.strip]), the
    [CommandType] enumeration, [CommandProcessor] (pattern table,
    [classify_command], [process] and the handlers for time, search and
    unknown commands), [SpeechManager.listen] and the main loop of
    [RonAI].

    A Python [str] is embedded as a [string] whose characters are the code
    points below 256; the primitives below agree with CPython on that
    range. *)

From Stdlib Require Import Ascii String NArith Bool List Lia.
From stdpp Require Import base option list strings gmap.
Import ListNotations.

Local Open Scope string_scope.
Local Open Scope list_scope.

(** ** Python string primitives *)

Module Py.

(** One character of [str.lower]: A-Z and the Latin-1 capitals
    (U+00C0-U+00DE without the multiplication sign U+00D7) move up by 32. *)
Definition lower_char (c : ascii) : ascii :=
  let n := N_of_ascii c in
  if ((65 <=? n) && (n <=? 90)
      || (192 <=? n) && (n <=? 222) && negb (n =? 215))%N
  then ascii_of_N (n + 32)
  else c.

(** [s.lower()] *)
Fixpoint lower (s : string) : string :=
  match s with
  | EmptyString => EmptyString
  | String c s' => String (lower_char c) (lower s')
  end.

(** [s.startswith(p)] *)
Fixpoint startswith (p s : string) : bool :=
  match p, s with
  | EmptyString, _ => true
  | String _ _, EmptyString => false
  | String a p', String b s' => Ascii.eqb a b && startswith p' s'
  end.

(** [p in s] on strings: [p] occurs at some position of [s]. *)
Fixpoint contains (p s : string) : bool :=
  startswith p s ||
  match s with
  | EmptyString => false
  | String _ s' => contains p s'
  end.

(** [any(p in s for p in ps)] *)
Definition any_in (ps : list string) (s : string) : bool :=
  existsb (fun p => contains p s) ps.

(** [c.isspace()] for a code point below 256. *)
Definition isspace (c : ascii) : bool :=
  let n := N_of_ascii c in
  ((9 <=? n) && (n <=? 13) || (28 <=? n) && (n <=? 32)
   || (n =? 133) || (n =? 160))%N.

Fixpoint lstrip (s : string) : string :=
  match s with
  | EmptyString => EmptyString
  | String c s' => if isspace c then lstrip s' else s
  end.

Fixpoint rstrip (s : string) : string :=
  match s with
  | EmptyString => EmptyString
  | String c s' =>
      match rstrip s' with
      | EmptyString => if isspace c then EmptyString else String c EmptyString
      | r => String c r
      end
  end.

(** [s.strip()] *)
Definition strip (s : string) : string := rstrip (lstrip s).

(** The scan of [s.split(sep)] for a non-empty [sep]: left to right,
    occurrences do not overlap.  [skip] counts the characters of the
    occurrence just found that are still to be passed over; [cur] is the
    piece being built. *)
Fixpoint split_go (sep : string) (skip : nat) (cur s : string)
  : list string :=
  match s with
  | EmptyString => [cur]
  | String c s' =>
      match skip with
      | S k => split_go sep k cur s'
      | O =>
          if startswith sep s
          then cur :: split_go sep (String.length sep - 1) EmptyString s'
          else split_go sep O (cur +:+ String c EmptyString) s'
      end
  end.

(** [s.split(sep)]; [None] stands for [ValueError: empty separator]. *)
Definition split (sep s : string) : option (list string) :=
  match sep with
  | EmptyString => None
  | _ => Some (split_go sep O EmptyString s)
  end.

(** [l[-1]]; [None] stands for [IndexError]. *)
Definition last_item {A} (l : list A) : option A := last l.

End Py.

(** ** The command categories *)

Inductive CommandType :=
  | TIME | DATE | WEATHER | SEARCH | OPEN_APP | SYSTEM | VOLUME | MUSIC
  | INFO | SMART_HOME | REMINDER | NOTE | UNKNOWN.

(** [cmd_type.value] *)
Definition value (c : CommandType) : string :=
  match c with
  | TIME => "time" | DATE => "date" | WEATHER => "weather"
  | SEARCH => "search" | OPEN_APP => "open_app" | SYSTEM => "system"
  | VOLUME => "volume" | MUSIC => "music" | INFO => "info"
  | SMART_HOME => "smart_home" | REMINDER => "reminder" | NOTE => "note"
  | UNKNOWN => "unknown"
  end.

#[global] Instance CommandType_eq_dec : EqDecision CommandType.
Proof. solve_decision. Defined.

Definition CommandType_to_nat (c : CommandType) : nat :=
  match c with
  | TIME => 0 | DATE => 1 | WEATHER => 2 | SEARCH => 3 | OPEN_APP => 4
  | SYSTEM => 5 | VOLUME => 6 | MUSIC => 7 | INFO => 8 | SMART_HOME => 9
  | REMINDER => 10 | NOTE => 11 | UNKNOWN => 12
  end.

Definition CommandType_of_nat (n : nat) : option CommandType :=
  match n with
  | 0 => Some TIME | 1 => Some DATE | 2 => Some WEATHER | 3 => Some SEARCH
  | 4 => Some OPEN_APP | 5 => Some SYSTEM | 6 => Some VOLUME
  | 7 => Some MUSIC | 8 => Some INFO | 9 => Some SMART_HOME
  | 10 => Some REMINDER | 11 => Some NOTE | 12 => Some UNKNOWN
  | _ => None
  end.

#[global] Instance CommandType_countable : Countable CommandType.
Proof.
  apply (inj_countable CommandType_to_nat CommandType_of_nat).
  intros []; reflexivity.
Defined.

(** ** The pattern table and the classifier *)

(** [self.command_patterns]: a dict literal keeps its insertion order, and
    [classify_command] walks it with [items()], so the table is the list of
    its items. *)
Definition command_patterns : list (CommandType * list string) :=
  [ (TIME, ["time"; "clock"; "what time"]);
    (DATE, ["date"; "day"; "what day"]);
    (WEATHER, ["weather"; "temperature"; "forecast"]);
    (SEARCH, ["search"; "google"; "look up"; "find"]);
    (OPEN_APP, ["open"; "launch"; "start"]);
    (VOLUME, ["volume"; "sound"; "mute"; "unmute"]);
    (MUSIC, ["play music"; "pause music"; "stop music"; "next song"]);
    (INFO, ["tell me about"; "what is"; "who is"; "define"]);
    (SMART_HOME, ["lights"; "temperature"; "thermostat"; "lock"; "unlock"]);
    (REMINDER, ["remind"; "reminder"; "alert me"]);
    (NOTE, ["note"; "write down"; "remember this"]) ].

(** The [for cmd_type, patterns in ...items()] loop with its early
    [return]. *)
Fixpoint classify_in (table : list (CommandType * list string))
  (command_lower : string) : CommandType :=
  match table with
  | [] => UNKNOWN
  | (cmd_type, patterns) :: rest =>
      if Py.any_in patterns command_lower then cmd_type
      else classify_in rest command_lower
  end.

Definition classify_command (command : string) : CommandType :=
  let command_lower := Py.lower command in
  classify_in command_patterns command_lower.

(** The trigger substrings a table gives a category: those of its entry,
    none for a category without one. *)
Definition triggers_in (table : list (CommandType * list string))
  (c : CommandType) : list string :=
  match List.find (fun kv => bool_decide (fst kv = c)) table with
  | Some kv => snd kv
  | None => []
  end.

Definition triggers : CommandType -> list string :=
  triggers_in command_patterns.

(** Position of a category among the keys of a table, if it has one. *)
Fixpoint position_in (table : list (CommandType * list string))
  (c : CommandType) : option nat :=
  match table with
  | [] => None
  | kv :: rest =>
      if bool_decide (fst kv = c) then Some 0
      else option_map S (position_in rest c)
  end.

(** [earlier_in table c' c]: both have an entry and that of [c'] comes
    first. *)
Definition earlier_in (table : list (CommandType * list string))
  (c' c : CommandType) : Prop :=
  match position_in table c', position_in table c with
  | Some i, Some j => i < j
  | _, _ => False
  end.

Definition earlier : CommandType -> CommandType -> Prop :=
  earlier_in command_patterns.

(** The declared order of the table's keys. *)
Definition declared_order : list CommandType := map fst command_patterns.

(** ** Exceptions, effects and the outside world *)

(** The exception classes the program distinguishes.  The three
    [speech_recognition] errors and [OtherException] are instances of
    [Exception]; [KeyboardInterrupt] is not. *)
Inductive exn_class :=
  | WaitTimeoutError | UnknownValueError | RequestError
  | OtherException | KeyboardInterrupt.

#[global] Instance exn_class_eq_dec : EqDecision exn_class.
Proof. solve_decision. Defined.

(** A raised exception: its class and [str(e)]. *)
Record exn := Raise { cls : exn_class; msg : string }.

(** [isinstance(e, Exception)] *)
Definition is_Exception (e : exn) : bool :=
  negb (bool_decide (cls e = KeyboardInterrupt)).

Definition is_a (c : exn_class) (e : exn) : bool := bool_decide (cls e = c).

Inductive level := Info | Warning | Error.

(** What the program does to the outside, in order. *)
Inductive event :=
  | Spoken (text : string)              (* speech.speak(text) *)
  | Logged (lvl : level) (line : string) (* logger.info / warning / error *)
  | Opened (url : string)               (* webbrowser.open(url) *)
  | SavedPreferences                    (* config_manager.save_preferences *)
  | StoppedTts.                         (* tts_engine.stop() *)

Record datetime := {
  year : nat; month : nat; day : nat;
  hour : nat; minute : nat; second : nat
}.

Definition valid_datetime (t : datetime) : Prop :=
  hour t < 24 /\ minute t < 60.

(** One call of [SpeechManager.listen] as the microphone and the two
    recognition services answer it: [recorded] is [None] when
    [recognizer.listen] yields audio and the exception it raises
    otherwise; [google] and [sphinx] are the outcomes of the two
    recognizers on that audio. *)
Record attempt := {
  recorded : option exn;
  google : exn + string;
  sphinx : exn + string
}.

(** The collaborators the program calls: the clock behind
    [datetime.datetime.now()], the microphone and recognizers behind the
    n-th [listen] call with its two time limits, the web browser and the
    speech engine's [stop]. *)
Record World := {
  clock : nat -> datetime;
  mic : nat -> nat -> nat -> attempt;
  browser : string -> option exn;
  tts_stop : option exn
}.

(** State of the dealings with the world: clock reads so far, [listen]
    calls so far, and the events emitted, oldest first. *)
Record io_state := {
  tick : nat;
  heard : nat;
  trace : list event
}.

(** The objects' own fields: [CommandProcessor.command_history] and
    [RonAI.is_running].  A history entry is a dict with string keys. *)
Inductive pyval :=
  | VDatetime (t : datetime)
  | VStr (s : string)
  | VEnum (c : CommandType).

Record state := {
  command_history : list (gmap string pyval);
  is_running : bool;
  io : io_state
}.

(** ** A state and exception monad *)

Definition ST (S A : Type) : Type := S -> S * (exn + A).

Definition ret {S A} (a : A) : ST S A := fun s => (s, inr a).

Definition bind {S A B} (m : ST S A) (k : A -> ST S B) : ST S B :=
  fun s =>
    match m s with
    | (s', inl e) => (s', inl e)
    | (s', inr a) => k a s'
    end.

Definition raise {S A} (e : exn) : ST S A := fun s => (s, inl e).

Declare Scope st_scope.
Delimit Scope st_scope with st.
Notation "x <- m ;; k" := (bind m (fun x => k))
  (at level 100, m at next level, right associativity) : st_scope.
Notation "m ;; k" := (bind m (fun _ => k))
  (at level 100, right associativity) : st_scope.
Local Open Scope st_scope.

(** [try: body / except C1: h1 / except C2: h2 ...]: the first clause whose
    class test accepts the exception handles it; an exception no clause
    accepts goes on to the caller, with the state the body left. *)
Fixpoint pick_clause {S A} (clauses : list ((exn -> bool) * (exn -> ST S A)))
  (e : exn) : ST S A :=
  match clauses with
  | [] => raise e
  | (accepts, handler) :: rest =>
      if accepts e then handler e else pick_clause rest e
  end.

Definition try_ {S A} (body : ST S A)
  (clauses : list ((exn -> bool) * (exn -> ST S A))) : ST S A :=
  fun s =>
    match body s with
    | (s', inl e) => pick_clause clauses e s'
    | r => r
    end.

(** [except Exception as e: h] *)
Definition except_Exception {S A} (h : exn -> ST S A)
  : (exn -> bool) * (exn -> ST S A) := (is_Exception, h).

(** [except C: h] for one of the classes. *)
Definition except_ {S A} (c : exn_class) (h : ST S A)
  : (exn -> bool) * (exn -> ST S A) := (is_a c, fun _ => h).

(** A bare [except: h] *)
Definition except_all {S A} (h : ST S A)
  : (exn -> bool) * (exn -> ST S A) := (fun _ => true, fun _ => h).

Definition IO := ST io_state.
Definition M := ST state.

Definition lift {A} (m : IO A) : M A :=
  fun s =>
    let (i, r) := m (io s) in
    ({| command_history := command_history s;
        is_running := is_running s;
        io := i |}, r).

(** An external call that answers with a value or raises. *)
Definition external {S A} (r : exn + A) : ST S A :=
  match r with
  | inl e => raise e
  | inr a => ret a
  end.

(** An external call with no result: [None] is a normal return. *)
Definition external_ {S} (r : option exn) : ST S unit :=
  match r with
  | Some e => raise e
  | None => ret tt
  end.

(** A value a Python primitive may refuse to produce. *)
Definition of_option {S A} (why : string) (o : option A) : ST S A :=
  match o with
  | Some a => ret a
  | None => raise (Raise OtherException why)
  end.

Definition emit (ev : event) : IO unit :=
  fun i => ({| tick := tick i; heard := heard i; trace := trace i ++ [ev] |},
            inr tt).

Definition log (lvl : level) (line : string) : IO unit :=
  emit (Logged lvl line).

(** [text] is truthy: neither [None] nor the empty string. *)
Definition truthy (text : option string) : bool :=
  match text with
  | Some (String _ _) => true
  | _ => false
  end.

(** ** [strftime("%I:%M %p")] *)

Definition digit (n : nat) : ascii := ascii_of_nat (48 + n).

Definition two_digits (n : nat) : string :=
  String (digit (n / 10)) (String (digit (n mod 10)) EmptyString).

(** [%I]: the hour on a 12-hour clock. *)
Definition hour12 (h : nat) : nat :=
  match h mod 12 with
  | 0 => 12
  | k => k
  end.

(** [%I:%M %p] for hour [h] and minute [m]. *)
Definition clock_text (h m : nat) : string :=
  two_digits (hour12 h) +:+ ":" +:+ two_digits m +:+ " "
  +:+ (if (h <? 12)%nat then "AM" else "PM").

Definition strftime_I_M_p (t : datetime) : string :=
  clock_text (hour t) (minute t).

Definition is_digit (c : ascii) : bool :=
  let n := nat_of_ascii c in ((48 <=? n) && (n <=? 57))%nat.

(** The shape [strftime("%I:%M %p")] produces: [hh:mm AM] or [hh:mm PM]. *)
Definition is_formatted_time (s : string) : bool :=
  match s with
  | String h1 (String h2 (String c (String m1 (String m2 (String sp ap))))) =>
      is_digit h1 && is_digit h2 && Ascii.eqb c ":" && is_digit m1
      && is_digit m2 && Ascii.eqb sp " "
      && (String.eqb ap "AM" || String.eqb ap "PM")
  | _ => false
  end.

(** ** The program *)

(** A handler method of [CommandProcessor]: it talks to the world and has
    no access to the history or the running flag. *)
Definition handler := string -> IO unit.

(** The handler methods [process] looks up on [self]. *)
Record Handlers := {
  handle_time : handler;
  handle_date : handler;
  handle_weather : handler;
  handle_search : handler;
  handle_open_app : handler;
  handle_volume : handler;
  handle_music : handler;
  handle_info : handler;
  handle_smart_home : handler;
  handle_reminder : handler;
  handle_note : handler;
  handle_unknown : handler
}.

(** The words [process] treats as a farewell. *)
Definition exit_words : list string := ["goodbye"; "exit"; "quit"; "bye"].

Definition goodbye_text : string := "Goodbye! It was nice talking to you.".

Definition apology_text : string :=
  "Sorry, I encountered an error processing that command.".

(** [UserPreference.wake_words] as [__post_init__] fills it. *)
Definition default_wake_words : list string :=
  ["hey ron"; "ron"; "hey assistant"].

Section Program.

Context (w : World).

(** *** SpeechManager *)

(** [speak(text)] with [wait=True], as every call site has it.  [_speak]
    wraps the engine calls in [try/except Exception] and only logs, so
    [speak] returns normally. *)
Definition speak (text : string) : IO unit := emit (Spoken text).

(** The world's answer to this [listen] call. *)
Definition next_attempt (timeout phrase_limit : nat) : IO attempt :=
  fun i =>
    ({| tick := tick i; heard := S (heard i); trace := trace i |},
     inr (mic w (heard i) timeout phrase_limit)).

(** [listen(timeout, phrase_limit)].  The [logger.debug] line is below the
    logger's level and leaves no trace. *)
Definition listen (timeout phrase_limit : nat) : IO (option string) :=
  try_
    (a <- next_attempt timeout phrase_limit ;;
     external_ (recorded a) ;;
     text <- try_
               (t <- external (google a) ;; ret (Some (Py.lower t)))
               [ except_ RequestError
                   (log Warning
                      "Google recognition failed, trying alternatives..." ;;
                    try_
                      (t <- external (sphinx a) ;; ret (Some (Py.lower t)))
                      [ except_all (ret None) ]) ] ;;
     (if truthy text
      then log Info ("Recognized: " +:+ default "" text)
      else ret tt) ;;
     ret text)
    [ except_ WaitTimeoutError (ret None);
      except_ UnknownValueError (ret None);
      except_Exception (fun e =>
        log Error ("Speech recognition error: " +:+ msg e) ;;
        ret None) ].

(** *** CommandProcessor *)

(** [datetime.datetime.now()] *)
Definition now : IO datetime :=
  fun i =>
    ({| tick := S (tick i); heard := heard i; trace := trace i |},
     inr (clock w (tick i))).

Definition _handle_time (command : string) : IO unit :=
  try_
    (current_time <- now ;;
     let time_str := strftime_I_M_p current_time in
     speak ("It's " +:+ time_str))
    [ except_Exception (fun e =>
        log Error ("Time handler error: " +:+ msg e) ;;
        speak "Sorry, I couldn't get the time.") ].

Definition search_terms : list string :=
  ["search for"; "google"; "search"; "look up"; "find"].

(** The [for term in terms: if term in query: ...; break] loop of the
    search handler: what [query] is bound to after it. *)
Fixpoint after_first_term (terms : list string) (query : string)
  : IO string :=
  match terms with
  | [] => ret query
  | term :: rest =>
      if Py.contains term query
      then parts <- of_option "empty separator" (Py.split term query) ;;
           piece <- of_option "list index out of range"
                      (Py.last_item parts) ;;
           ret (Py.strip piece)
      else after_first_term rest query
  end.

(** The query the search handler extracts from a command. *)
Definition extract_query (command : string) : IO string :=
  after_first_term search_terms (Py.lower command).

Definition _handle_search (command : string) : IO unit :=
  try_
    (query <- extract_query command ;;
     if negb (String.eqb query "")
        && negb (String.eqb query (Py.lower command))
     then
       let url := "https://www.google.com/search?q=" +:+ query in
       external_ (browser w url) ;;
       emit (Opened url) ;;
       speak ("I've opened search results for " +:+ query)
     else speak "What would you like me to search for?")
    [ except_Exception (fun e =>
        log Error ("Search handler error: " +:+ msg e) ;;
        speak "Sorry, I couldn't perform the search.") ].

Definition _handle_unknown (command : string) : IO unit :=
  speak "I'm not sure how to help with that. Could you please rephrase?".

(** [CommandProcessor] with the three handlers above and the remaining
    ones, which only drive external integrations, left to [ext]. *)
Definition processor (ext : CommandType -> handler) : Handlers :=
  {| handle_time := _handle_time;
     handle_date := ext DATE;
     handle_weather := ext WEATHER;
     handle_search := _handle_search;
     handle_open_app := ext OPEN_APP;
     handle_volume := ext VOLUME;
     handle_music := ext MUSIC;
     handle_info := ext INFO;
     handle_smart_home := ext SMART_HOME;
     handle_reminder := ext REMINDER;
     handle_note := ext NOTE;
     handle_unknown := _handle_unknown |}.

Context (self : Handlers).

(** The [handlers] dict of [process]. *)
Definition handlers : gmap CommandType handler :=
  {[ TIME := handle_time self;
     DATE := handle_date self;
     WEATHER := handle_weather self;
     SEARCH := handle_search self;
     OPEN_APP := handle_open_app self;
     VOLUME := handle_volume self;
     MUSIC := handle_music self;
     INFO := handle_info self;
     SMART_HOME := handle_smart_home self;
     REMINDER := handle_reminder self;
     NOTE := handle_note self;
     UNKNOWN := handle_unknown self ]}.

(** [self.command_history.append(entry)] *)
Definition append_history (entry : gmap string pyval) : M unit :=
  fun s =>
    ({| command_history := command_history s ++ [entry];
        is_running := is_running s;
        io := io s |}, inr tt).

(** The entry [process] builds for [command] at time [t]. *)
Definition history_entry (t : datetime) (command : string)
  : gmap string pyval :=
  {[ "timestamp" := VDatetime t; "command" := VStr command ]}.

Definition process (command : string) : M bool :=
  try_
    (t <- lift now ;;
     append_history (history_entry t command) ;;
     let cmd_type := classify_command command in
     lift (log Info ("Command type: " +:+ value cmd_type)) ;;
     if Py.any_in exit_words (Py.lower command)
     then lift (speak goodbye_text) ;; ret false
     else
       let handler := default (handle_unknown self) (handlers !! cmd_type) in
       lift (handler command) ;;
       ret true)
    [ except_Exception (fun e =>
        lift (log Error ("Command processing error: " +:+ msg e)) ;;
        lift (speak apology_text) ;;
        ret true) ].

(** *** RonAI *)

Context (wake_words : list string).

Definition set_running (b : bool) : M unit :=
  fun s =>
    ({| command_history := command_history s;
        is_running := b;
        io := io s |}, inr tt).

Definition get_running : M bool := fun s => (s, inr (is_running s)).

Definition handle_activation : M unit :=
  try_
    (lift (speak "Yes, how can I help you?") ;;
     command <- lift (listen 5 10) ;;
     if truthy command
     then should_continue <- process (default "" command) ;;
          if negb should_continue then set_running false else ret tt
     else lift (speak "I didn't hear anything. Please try again."))
    [ except_Exception (fun e =>
        lift (log Error ("Error handling activation: " +:+ msg e)) ;;
        lift (speak "Sorry, I encountered an error.")) ].

(** [shutdown]; [tts_engine] is set once [SpeechManager] is built, so the
    engine is always asked to stop. *)
Definition shutdown : M unit :=
  try_
    (lift (log Info "Shutting down Ron AI...") ;;
     lift (emit SavedPreferences) ;;
     lift (external_ (tts_stop w)) ;;
     lift (emit StoppedTts) ;;
     lift (speak "Ron shutting down. Goodbye!") ;;
     lift (log Info "Ron AI shutdown complete"))
    [ except_Exception (fun e =>
        lift (log Error ("Error during shutdown: " +:+ msg e))) ].

(** One pass through the body of [while self.is_running]; the result
    tells whether the loop was left by [break].  The two [time.sleep]
    calls only pace the loop. *)
Definition loop_body : M bool :=
  try_
    (text <- lift (listen 1 3) ;;
     (if truthy text
      then if Py.any_in wake_words (default "" text)
           then handle_activation
           else ret tt
      else ret tt) ;;
     ret false)
    [ except_ KeyboardInterrupt (ret true);
      except_Exception (fun e =>
        lift (log Error ("Error in main loop: " +:+ msg e)) ;;
        ret false) ].

(** The [while] loop, for at most [fuel] passes.  [true]: the loop was
    left (the flag went down, or [break]); [false]: it was still running
    when the fuel ran out. *)
Fixpoint main_loop (fuel : nat) : M bool :=
  match fuel with
  | O => running <- get_running ;; ret (negb running)
  | S fuel' =>
      running <- get_running ;;
      if running
      then broke <- loop_body ;;
           if broke then ret true else main_loop fuel'
      else ret true
  end.

(** [RonAI.run]: [Some tt] when it returned, [None] when the loop
    outlived the fuel. *)
Definition run (fuel : nat) : M (option unit) :=
  try_
    (set_running true ;;
     lift (speak
       "Hello! I'm Ron, your AI assistant. Say 'Hey Ron' to activate me.") ;;
     left_loop <- main_loop fuel ;;
     if left_loop then shutdown ;; ret (Some tt) else ret None)
    [ except_Exception (fun e =>
        lift (log Error ("Fatal error in run: " +:+ msg e)) ;;
        shutdown ;; ret (Some tt)) ].

End Program.

(** ** Vocabulary of the statements *)

(** The state [process] has reached when it looks at the farewell words:
    one clock read, the entry appended, the category logged. *)
Definition classified (w : World) (command : string) (s : state) : state :=
  {| command_history :=
       command_history s ++ [history_entry (clock w (tick (io s))) command];
     is_running := is_running s;
     io := {| tick := S (tick (io s));
              heard := heard (io s);
              trace := trace (io s)
                       ++ [Logged Info ("Command type: "
                                        +:+ value (classify_command command))]
           |} |}.

(** [s] with its dealings with the world replaced by [i]. *)
Definition with_io (s : state) (i : io_state) : state :=
  {| command_history := command_history s;
     is_running := is_running s;
     io := i |}.

(** The handler [process] selects for a command. *)
Definition selected (self : Handlers) (command : string) : handler :=
  default (handle_unknown self) (handlers self !! classify_command command).

(** The events emitted between [s] and a later state [s']. *)
Definition emitted (s s' : state) : list event :=
  drop (length (trace (io s))) (trace (io s')).

(** The log line [process] writes once it has classified a command. *)
Definition classification_line (c : CommandType) : event :=
  Logged Info ("Command type: " +:+ value c).

(** The farewell check comes first: between [s] and [s'], no
    classification has been logged ahead of the farewell. *)
Definition exit_checked_first (s s' : state) : Prop :=
  forall c before after,
    emitted s s' = before ++ Spoken goodbye_text :: after ->
    ~ In (classification_line c) before.

(** A history entry holds category [c], as the enumeration member or as
    its value. *)
Definition records_category (e : gmap string pyval) (c : CommandType)
  : Prop :=
  exists k, e !! k = Some (VEnum c) \/ e !! k = Some (VStr (value c)).

(** [m] leaves the entries the history already has in place. *)
Definition keeps_history {A} (m : M A) : Prop :=
  forall s, command_history s `prefix_of` command_history (fst (m s)).

(** The io state after a [listen] call that emitted nothing. *)
Definition after_listen (i : io_state) : io_state :=
  {| tick := tick i; heard := S (heard i); trace := trace i |}.

(** [recognizer.listen] gave up waiting for speech. *)
Definition timed_out (a : attempt) : bool :=
  match recorded a with
  | Some e => is_a WaitTimeoutError e
  | None => false
  end.

(** Audio was recorded and the recognizer could not make it out. *)
Definition unintelligible (a : attempt) : bool :=
  match recorded a, google a with
  | None, inl e => is_a UnknownValueError e
  | _, _ => false
  end.

(** ** Sample worlds *)

Definition silence : attempt :=
  {| recorded := Some (Raise WaitTimeoutError "listening timed out");
     google := inl (Raise UnknownValueError "");
     sphinx := inl (Raise UnknownValueError "") |}.

Definition garbled : attempt :=
  {| recorded := None;
     google := inl (Raise UnknownValueError "");
     sphinx := inl (Raise UnknownValueError "") |}.

Definition says (text : string) : attempt :=
  {| recorded := None; google := inr text; sphinx := inr text |}.

Definition afternoon : datetime :=
  {| year := 2024; month := 5; day := 17;
     hour := 15; minute := 7; second := 42 |}.

(** A world that answers the successive [listen] calls from a script and
    is silent afterwards. *)
Definition scripted (answers : list attempt) : World :=
  {| clock := fun _ => afternoon;
     mic := fun n _ _ => nth n answers silence;
     browser := fun _ => None;
     tts_stop := None |}.

Definition quiet_world : World := scripted [].

(** An integration that is down. *)
Definition failing : handler :=
  fun _ => raise (Raise OtherException "integration down").

Definition stub_processor : Handlers := processor quiet_world (fun _ => failing).

Definition fresh : state :=
  {| command_history := [];
     is_running := true;
     io := {| tick := 0; heard := 0; trace := [] |} |}.

(** ** The rest of the handlers, and the API keys *)

Module PyStr.

(** [sep.join(parts)] *)
Definition join (sep : string) (parts : list string) : string :=
  String.concat sep parts.

(** [new] put after every character of [s]. *)
Fixpoint after_each (new s : string) : string :=
  match s with
  | EmptyString => EmptyString
  | String c s' => String c (new +:+ after_each new s')
  end.

(** [s.replace(old, new)]: the pieces between the occurrences of [old],
    joined by [new]; an empty [old] matches before every character and at
    the end. *)
Definition replace (old new s : string) : string :=
  match Py.split old s with
  | Some parts => join new parts
  | None => new +:+ after_each new s
  end.

End PyStr.

(** *** [strftime("%A, %B %d, %Y")] *)

Definition is_leap (y : nat) : bool :=
  (y mod 4 =? 0)%nat && (negb (y mod 100 =? 0)%nat || (y mod 400 =? 0)%nat).

Definition days_in_month (y m : nat) : nat :=
  match m with
  | 2 => if is_leap y then 29 else 28
  | 4 | 6 | 9 | 11 => 30
  | _ => 31
  end.

(** Days of year [y] before the first of month [S m]. *)
Fixpoint days_through_month (y m : nat) : nat :=
  match m with
  | O => 0
  | S m' => days_through_month y m' + days_in_month y m
  end.

Definition days_before_year (y : nat) : nat :=
  let p := y - 1 in p * 365 + p / 4 - p / 100 + p / 400.

(** [t.toordinal()]: day 1 is 1 January of year 1. *)
Definition toordinal (t : datetime) : nat :=
  days_before_year (year t) + days_through_month (year t) (month t - 1)
  + day t.

(** [t.weekday()]: Monday is 0. *)
Definition weekday (t : datetime) : nat := (toordinal t + 6) mod 7.

Definition day_names : list string :=
  ["Monday"; "Tuesday"; "Wednesday"; "Thursday"; "Friday"; "Saturday";
   "Sunday"].

Definition month_names : list string :=
  ["January"; "February"; "March"; "April"; "May"; "June"; "July";
   "August"; "September"; "October"; "November"; "December"].

(** [%Y] for the years 1000 to 9999. *)
Definition four_digits (n : nat) : string :=
  two_digits (n / 100) +:+ two_digits (n mod 100).

Definition strftime_A_B_d_Y (t : datetime) : string :=
  nth (weekday t) day_names "" +:+ ", "
  +:+ nth (month t - 1) month_names "" +:+ " "
  +:+ two_digits (day t) +:+ ", " +:+ four_digits (year t).

(** *** More collaborators *)

(** What comes back from the weather service: the figures of a report as
    the handler's f-string prints them ([round(...)] already applied to the
    two temperatures). *)
Record report := {
  description : string;
  temp : string;
  feels_like : string;
  humidity : string
}.

(** How a call into [requests] can fail: with a [RequestException], which
    the weather handler tells apart, or with any other exception. *)
Inductive failure :=
  | RequestException (m : string)
  | Raised (e : exn).

(** [requests.get(...)] and what the handler reads off the response:
    no response at all, or a status code with the report that
    [response.json()] and the lookups in it give (or their failure). *)
Inductive fetch :=
  | NoResponse (f : failure)
  | Response (status_code : nat) (body : failure + report).

(** The machine the assistant runs on. *)
Record Host := {
  platform : string;                        (* sys.platform *)
  os_system : string -> option exn;         (* os.system(cmd) *)
  popen : string -> option exn;             (* subprocess.Popen([name]) *)
  mkdir_notes : option exn;                 (* Path("notes").mkdir(exist_ok=True) *)
  open_note : datetime -> option exn;       (* open(note_file, 'w') *)
  write_note : datetime -> datetime -> string -> option exn;
                                            (* the two f.write calls *)
  http_get : string -> string -> fetch      (* city, API key *)
}.

(** Where [ConfigManager.get_api_key] looks: [environ_key service] is
    [os.getenv(f'{service.upper()}_API_KEY')], [secrets_exists] is
    [self.secrets_file.exists()] and [secrets_load] what opening the file
    and [json.load] give. *)
Record Vault := {
  environ_key : string -> option string;
  secrets_exists : bool;
  secrets_load : exn + gmap string string
}.

Definition degree : string := String (ascii_of_nat 176) EmptyString.

Definition info_terms : list string :=
  ["tell me about"; "what is"; "who is"; "define"].

Definition note_terms : list string :=
  ["note that"; "write down"; "remember"].

(** The [apps] dict of the open-app handler, in its order: name, Windows
    command, macOS application. *)
Definition apps : list (string * (string * string)) :=
  [ ("calculator", ("calc", "Calculator"));
    ("notepad", ("notepad", "TextEdit"));
    ("browser", ("start https://www.google.com", "open -a Safari"));
    ("terminal", ("cmd", "Terminal"));
    ("settings", ("start ms-settings:", "open -b com.apple.preference")) ].

Section Integrations.

Context (w : World) (host : Host) (vault : Vault).

(** [UserPreference.city] *)
Context (city : string).

(** *** ConfigManager *)

Definition get_api_key (service : string) : IO (option string) :=
  try_
    (let env_key := environ_key vault service in
     if truthy env_key then ret env_key
     else if secrets_exists vault
          then secrets <- external (secrets_load vault) ;;
               ret (secrets !! service)
          else ret None)
    [ except_Exception (fun e =>
        log Error ("Failed to get API key for " +:+ service +:+ ": "
                   +:+ msg e) ;;
        ret None) ].

(** *** The other handlers of CommandProcessor *)

Definition _handle_date (command : string) : IO unit :=
  try_
    (current_date <- now w ;;
     let date_str := strftime_A_B_d_Y current_date in
     speak ("Today is " +:+ date_str))
    [ except_Exception (fun e =>
        log Error ("Date handler error: " +:+ msg e) ;;
        speak "Sorry, I couldn't get the date.") ].

(** The city the weather is asked for: the preferred one, or what follows
    the last "in" of the command. *)
Definition weather_city (command : string) : IO string :=
  if Py.contains "in" command
  then parts <- of_option "empty separator" (Py.split "in" command) ;;
       if (1 <? length parts)%nat
       then piece <- of_option "list index out of range"
                       (Py.last_item parts) ;;
            ret (Py.strip piece)
       else ret city
  else ret city.

Definition weather_msg (city : string) (r : report) : string :=
  "The weather in " +:+ city +:+ " is " +:+ description r
  +:+ " with a temperature of " +:+ temp r +:+ degree +:+ "C, "
  +:+ "feels like " +:+ feels_like r +:+ degree +:+ "C, "
  +:+ "and humidity at " +:+ humidity r +:+ "%".

(** From [requests.get] to the spoken report.  The result is the message
    of the [RequestException] that was raised, if one was. *)
Definition weather_request (city api_key : string) : IO (option string) :=
  match http_get host city api_key with
  | NoResponse (RequestException m) => ret (Some m)
  | NoResponse (Raised e) => raise e
  | Response status_code body =>
      if (status_code =? 200)%nat
      then match body with
           | inl (RequestException m) => ret (Some m)
           | inl (Raised e) => raise e
           | inr r => speak (weather_msg city r) ;; ret None
           end
      else speak ("Sorry, I couldn't get weather information for "
                  +:+ city +:+ ".") ;;
           ret None
  end.

(** The [except requests.RequestException] clause is the [Some] branch;
    nothing in it can raise, so the clause after it never sees it. *)
Definition _handle_weather (command : string) : IO unit :=
  try_
    (api_key <- get_api_key "openweather" ;;
     if negb (truthy api_key)
     then speak
            "Weather service is not configured. Please set up your API key."
     else
       city <- weather_city command ;;
       failed <- weather_request city (default "" api_key) ;;
       match failed with
       | Some m =>
           log Error ("Weather API error: " +:+ m) ;;
           speak "Weather service is currently unavailable."
       | None => ret tt
       end)
    [ except_Exception (fun e =>
        log Error ("Weather handler error: " +:+ msg e) ;;
        speak "Sorry, I couldn't get the weather.") ].

(** The [for app_name, commands in apps.items()] loop: [true] when an
    application was opened.  A launch that raises is logged and the loop
    goes on with the next entry. *)
Fixpoint open_first (table : list (string * (string * string)))
  (command : string) : IO bool :=
  match table with
  | [] => ret false
  | (app_name, commands) :: rest =>
      if Py.contains app_name (Py.lower command)
      then
        try_
          ((if String.eqb (platform host) "win32"
            then external_ (os_system host (fst commands))
            else if String.eqb (platform host) "darwin"
                 then external_ (os_system host ("open -a " +:+ snd commands))
                 else external_ (popen host app_name)) ;;
           speak ("Opening " +:+ app_name) ;;
           ret true)
          [ except_Exception (fun e =>
              log Error ("Failed to open " +:+ app_name +:+ ": " +:+ msg e) ;;
              open_first rest command) ]
      else open_first rest command
  end.

Definition _handle_open_app (command : string) : IO unit :=
  try_
    (opened <- open_first apps command ;;
     if negb opened
     then speak "I'm not sure which application to open."
     else ret tt)
    [ except_Exception (fun e =>
        log Error ("Open app handler error: " +:+ msg e) ;;
        speak "Sorry, I couldn't open that application.") ].

(** The [if/elif] chain both desktop branches of the volume handler share:
    the four system commands, in the order up, down, mute, unmute. *)
Definition volume_chain (up down mute unmute command : string) : IO unit :=
  if Py.contains "up" command || Py.contains "increase" command
  then external_ (os_system host up) ;; speak "Volume increased"
  else if Py.contains "down" command || Py.contains "decrease" command
  then external_ (os_system host down) ;; speak "Volume decreased"
  else if Py.contains "mute" command
  then external_ (os_system host mute) ;; speak "Muted"
  else if Py.contains "unmute" command
  then external_ (os_system host unmute) ;; speak "Unmuted"
  else ret tt.

Definition _handle_volume (command : string) : IO unit :=
  try_
    (if String.eqb (platform host) "win32"
     then volume_chain "nircmd.exe changesysvolume 5000"
            "nircmd.exe changesysvolume -5000"
            "nircmd.exe mutesysvolume 1"
            "nircmd.exe mutesysvolume 0" command
     else if String.eqb (platform host) "darwin"
     then volume_chain
            "osascript -e 'set volume output volume ((output volume of (get volume settings)) + 10)'"
            "osascript -e 'set volume output volume ((output volume of (get volume settings)) - 10)'"
            "osascript -e 'set volume output muted true'"
            "osascript -e 'set volume output muted false'" command
     else speak "Volume control is not configured for this system.")
    [ except_Exception (fun e =>
        log Error ("Volume handler error: " +:+ msg e) ;;
        speak "Sorry, I couldn't control the volume.") ].

Definition _handle_music (command : string) : IO unit :=
  try_
    (if Py.contains "play" command
     then external_ (browser w "https://music.youtube.com") ;;
          emit (Opened "https://music.youtube.com") ;;
          speak "Opening YouTube Music"
     else if Py.contains "pause" command || Py.contains "stop" command
     then speak "Music control requires integration with your music player."
     else speak "Please specify what you'd like to do with music.")
    [ except_Exception (fun e =>
        log Error ("Music handler error: " +:+ msg e) ;;
        speak "Sorry, I couldn't control music playback.") ].

(** The topic the info handler extracts from a command. *)
Definition extract_topic (command : string) : IO string :=
  after_first_term info_terms (Py.lower command).

Definition _handle_info (command : string) : IO unit :=
  try_
    (topic <- extract_topic command ;;
     if negb (String.eqb topic "")
        && negb (String.eqb topic (Py.lower command))
     then
       let url := "https://en.wikipedia.org/wiki/"
                  +:+ PyStr.replace " " "_" topic in
       external_ (browser w url) ;;
       emit (Opened url) ;;
       speak ("I've opened information about " +:+ topic)
     else speak "What would you like to know about?")
    [ except_Exception (fun e =>
        log Error ("Info handler error: " +:+ msg e) ;;
        speak "Sorry, I couldn't find that information.") ].

Definition _handle_smart_home (command : string) : IO unit :=
  try_
    (if Py.contains "lights on" command
     then speak
       "I would turn on the lights if connected to your smart home system."
     else if Py.contains "lights off" command
     then speak
       "I would turn off the lights if connected to your smart home system."
     else if Py.contains "temperature" command
     then speak "Temperature control requires smart home integration."
     else speak "Smart home features require additional setup.")
    [ except_Exception (fun e =>
        log Error ("Smart home handler error: " +:+ msg e) ;;
        speak "Sorry, I couldn't control the smart home device.") ].

Definition _handle_reminder (command : string) : IO unit :=
  try_
    (if Py.contains "remind me to" command
     then parts <- of_option "empty separator"
                     (Py.split "remind me to" command) ;;
          piece <- of_option "list index out of range"
                     (Py.last_item parts) ;;
          let task := Py.strip piece in
          speak ("I'll remind you to " +:+ task
                 +:+ ". Note: Reminder system needs to be configured.")
     else speak "What would you like me to remind you about?")
    [ except_Exception (fun e =>
        log Error ("Reminder handler error: " +:+ msg e) ;;
        speak "Sorry, I couldn't set that reminder.") ].

(** The text the note handler extracts from a command. *)
Definition extract_note (command : string) : IO string :=
  after_first_term note_terms (Py.lower command).

Definition _handle_note (command : string) : IO unit :=
  try_
    (note <- extract_note command ;;
     if negb (String.eqb note "")
        && negb (String.eqb note (Py.lower command))
     then
       external_ (mkdir_notes host) ;;
       timestamp <- now w ;;
       external_ (open_note host timestamp) ;;
       created <- now w ;;
       external_ (write_note host timestamp created note) ;;
       speak ("I've saved your note: " +:+ note)
     else speak "What would you like me to note down?")
    [ except_Exception (fun e =>
        log Error ("Note handler error: " +:+ msg e) ;;
        speak "Sorry, I couldn't save that note.") ].

(** [CommandProcessor] with its twelve handlers. *)
Definition assistant : Handlers :=
  {| handle_time := _handle_time w;
     handle_date := _handle_date;
     handle_weather := _handle_weather;
     handle_search := _handle_search w;
     handle_open_app := _handle_open_app;
     handle_volume := _handle_volume;
     handle_music := _handle_music;
     handle_info := _handle_info;
     handle_smart_home := _handle_smart_home;
     handle_reminder := _handle_reminder;
     handle_note := _handle_note;
     handle_unknown := _handle_unknown |}.

End Integrations.

(** *** Vocabulary for the handlers *)

(** A handler that keeps every [Exception] to itself. *)
Definition absorbs (h : handler) : Prop :=
  forall command i i' e, h command i = (i', inl e) -> is_Exception e = false.

Definition all_absorb (self : Handlers) : Prop :=
  absorbs (handle_time self) /\ absorbs (handle_date self) /\
  absorbs (handle_weather self) /\ absorbs (handle_search self) /\
  absorbs (handle_open_app self) /\ absorbs (handle_volume self) /\
  absorbs (handle_music self) /\ absorbs (handle_info self) /\
  absorbs (handle_smart_home self) /\ absorbs (handle_reminder self) /\
  absorbs (handle_note self) /\ absorbs (handle_unknown self).

(** [l1] are the terms tried before [term] in [terms]. *)
Definition tried_before (terms l1 : list string) (term : string) : Prop :=
  exists l2, terms = l1 ++ term :: l2.

(** A machine on which nothing fails. *)
Definition linux_box : Host :=
  {| platform := "linux";
     os_system := fun _ => None;
     popen := fun _ => None;
     mkdir_notes := None;
     open_note := fun _ => None;
     write_note := fun _ _ _ => None;
     http_get := fun _ _ =>
       Response 200 (inr {| description := "clear sky"; temp := "21";
                            feels_like := "20"; humidity := "40" |}) |}.

Definition windows_box : Host :=
  {| platform := "win32";
     os_system := fun _ => None;
     popen := fun _ => None;
     mkdir_notes := None;
     open_note := fun _ => None;
     write_note := fun _ _ _ => None;
     http_get := fun _ _ => NoResponse (RequestException "no route") |}.

Definition no_keys : Vault :=
  {| environ_key := fun _ => None;
     secrets_exists := false;
     secrets_load := inr ∅ |}.

Definition env_keys : Vault :=
  {| environ_key := fun _ => Some "k-env";
     secrets_exists := true;
     secrets_load := inl (Raise OtherException "Expecting value") |}.

Definition fresh_io : io_state := {| tick := 0; heard := 0; trace := [] |}.

(** The events emitted between [i] and a later io state [i']. *)
Definition said (i i' : io_state) : list event :=
  drop (length (trace i)) (trace i').

(** [i] with [evs] emitted. *)
Definition and_then (i : io_state) (evs : list event) : io_state :=
  {| tick := tick i; heard := heard i; trace := trace i ++ evs |}.


(** Google unreachable, the offline recognizer interrupted. *)
Definition offline_interrupted : attempt :=
  {| recorded := None;
     google := inl (Raise RequestError "recognition connection failed");
     sphinx := inl (Raise KeyboardInterrupt "") |}.

(** Google unreachable, the offline recognizer hears [text]. *)
Definition offline_says (text : string) : attempt :=
  {| recorded := None;
     google := inl (Raise RequestError "recognition connection failed");
     sphinx := inr text |}.

(** Ctrl-C while waiting for speech. *)
Definition interrupted : attempt :=
  {| recorded := Some (Raise KeyboardInterrupt "");
     google := inl (Raise UnknownValueError "");
     sphinx := inl (Raise UnknownValueError "") |}.


(** A machine on which every launch fails. *)
Definition broken_box : Host :=
  {| platform := "linux";
     os_system := fun _ => Some (Raise OtherException "not permitted");
     popen := fun name =>
       Some (Raise OtherException ("No such file or directory: " +:+ name));
     mkdir_notes := Some (Raise OtherException "read-only file system");
     open_note := fun _ => Some (Raise OtherException "read-only file system");
     write_note := fun _ _ _ => None;
     http_get := fun _ _ => NoResponse (RequestException "no route") |}.

(** Keys only in a secrets file that cannot be parsed. *)
Definition broken_secrets : Vault :=
  {| environ_key := fun _ => Some "";
     secrets_exists := true;
     secrets_load := inl (Raise OtherException "Expecting value") |}.

(** * Properties *)

(** ** Strings *)

Section Strings.

Lemma startswith_spec p s :
  Py.startswith p s = true <-> exists b, s = p +:+ b.
Proof.
  revert s; induction p as [|a p IH]; intros s; simpl.
  - split; [intros _; exists s; reflexivity | reflexivity].
  - destruct s as [|c s]; simpl.
    + split; [discriminate | intros [b Hb]; discriminate].
    + rewrite andb_true_iff, Ascii.eqb_eq, IH. split.
      * intros [-> [b ->]]. exists b. reflexivity.
      * intros [b Hb]. injection Hb as -> ->. eauto.
Qed.

(** [contains] is Python's [in]: [p] is a contiguous part of [s]. *)
Lemma contains_spec p s :
  Py.contains p s = true <-> exists a b, s = a +:+ p +:+ b.
Proof.
  induction s as [|c s IH]; simpl; rewrite orb_true_iff.
  - split.
    + intros [H|H]; [|discriminate].
      apply startswith_spec in H as [b Hb]. exists EmptyString, b. exact Hb.
    + intros [a [b H]]. left. apply startswith_spec.
      destruct a; simpl in H; [eauto | discriminate].
  - rewrite IH. split.
    + intros [H|[a [b ->]]].
      * apply startswith_spec in H as [b Hb]. exists EmptyString, b. exact Hb.
      * exists (String c a), b. reflexivity.
    + intros [a [b H]]. destruct a as [|c' a]; simpl in H.
      * left. apply startswith_spec. eauto.
      * right. injection H as _ ->. eauto.
Qed.

Lemma any_in_true ps s :
  Py.any_in ps s = true <-> exists p, In p ps /\ Py.contains p s = true.
Proof. apply existsb_exists. Qed.

Lemma any_in_false ps s :
  Py.any_in ps s = false <-> forall p, In p ps -> Py.contains p s = false.
Proof.
  unfold Py.any_in. induction ps as [|q ps IH]; simpl.
  - split; [intros _ p [] | reflexivity].
  - rewrite orb_false_iff, IH. split.
    + intros [Hq Hps] p [<-|Hp]; auto.
    + intros H. split; [|intros p Hp]; apply H; auto.
Qed.

Lemma lower_char_idempotent c :
  Py.lower_char (Py.lower_char c) = Py.lower_char c.
Proof. destruct c as [[] [] [] [] [] [] [] []]; reflexivity. Qed.

Lemma lower_idempotent s : Py.lower (Py.lower s) = Py.lower s.
Proof.
  induction s as [|c s IH]; simpl; [reflexivity|].
  now rewrite lower_char_idempotent, IH.
Qed.

Lemma lower_app a b : Py.lower (a +:+ b) = Py.lower a +:+ Py.lower b.
Proof. induction a as [|c a IH]; simpl; [reflexivity | now rewrite IH]. Qed.

(** A substring that is already lower-case survives [lower]. *)
Lemma contains_lower p s :
  Py.lower p = p -> Py.contains p s = true ->
  Py.contains p (Py.lower s) = true.
Proof.
  intros Hp H. apply contains_spec in H as [a [b ->]].
  apply contains_spec. exists (Py.lower a), (Py.lower b).
  now rewrite !lower_app, Hp.
Qed.

(** The primitives on a few inputs, as CPython answers them. *)
Example split_examples :
  Py.split "aa" "aaa" = Some [""; "a"] /\
  Py.split "search for" "search for rust programming"
  = Some [""; " rust programming"] /\
  Py.split "," "a,b,,c" = Some ["a"; "b"; ""; "c"] /\
  Py.split "" "abc" = None.
Proof. repeat split. Qed.

Example strip_examples :
  Py.strip "  rust programming " = "rust programming" /\
  Py.strip "   " = "" /\
  Py.strip "a  b" = "a  b".
Proof. repeat split. Qed.

Example lower_examples :
  Py.lower "Hey Ron, what TIME is it?" = "hey ron, what time is it?" /\
  Py.lower_char (ascii_of_nat 201) = ascii_of_nat 233 /\
  Py.lower_char (ascii_of_nat 215) = ascii_of_nat 215.
Proof. repeat split. Qed.

Example contains_examples :
  Py.contains "quit" "quite" = true /\
  Py.contains "" "" = true /\
  Py.contains "bye" "by e" = false.
Proof. repeat split. Qed.

End Strings.

(** ** The classifier *)

Section Classifier.

Implicit Types (table : list (CommandType * list string)) (u : string).

Lemma position_in_keys table c i :
  position_in table c = Some i -> c ∈ map fst table.
Proof.
  rewrite list_elem_of_In.
  revert i; induction table as [|kv rest IH]; intros i; simpl.
  - discriminate.
  - case_bool_decide; [now left|].
    destruct (position_in rest c) eqn:E; [|discriminate]. eauto.
Qed.

Lemma triggers_in_position table c p :
  In p (triggers_in table c) -> exists i, position_in table c = Some i.
Proof.
  unfold triggers_in. induction table as [|kv rest IH]; simpl.
  - intros [].
  - case_bool_decide as Hk; [eauto|].
    intros Hp. destruct (IH Hp) as [i ->]. simpl. eauto.
Qed.

(** The loop returns the first key, in table order, one of whose
    patterns occurs in the text. *)
Lemma classify_in_first_match table u c p :
  NoDup (map fst table) ->
  In p (triggers_in table c) ->
  Py.contains p u = true ->
  (forall c' p', earlier_in table c' c -> In p' (triggers_in table c') ->
                 Py.contains p' u = false) ->
  classify_in table u = c.
Proof.
  induction table as [|[k ps] rest IH]; simpl; intros Hnd Hp Hc Hearly.
  - destruct Hp.
  - inversion Hnd as [|k0 l0 Hk Hnd']; subst k0 l0.
    unfold triggers_in in Hp; simpl in Hp.
    case_bool_decide as Hkc.
    + subst k. simpl in Hp.
      assert (Py.any_in ps u = true) as ->
        by (apply any_in_true; eauto).
      reflexivity.
    + fold (triggers_in rest c) in Hp.
      destruct (triggers_in_position _ _ _ Hp) as [j Hj].
      assert (Py.any_in ps u = false) as ->.
      { apply any_in_false. intros q Hq. apply (Hearly k q).
        - unfold earlier_in; simpl.
          rewrite bool_decide_true by reflexivity.
          rewrite bool_decide_false by assumption.
          rewrite Hj. simpl. lia.
        - unfold triggers_in; simpl.
          rewrite bool_decide_true by reflexivity. exact Hq. }
      apply IH; auto.
      intros c' p' He Hp'.
      assert (k <> c') as Hkc'.
      { intros ->. unfold earlier_in in He.
        destruct (position_in rest c') eqn:E; [|destruct He].
        apply Hk. eapply position_in_keys; eauto. }
      apply (Hearly c' p').
      * unfold earlier_in in *; simpl.
        rewrite !bool_decide_false by assumption.
        destruct (position_in rest c'); [|destruct He].
        destruct (position_in rest c); [|destruct He]. simpl. lia.
      * unfold triggers_in; simpl.
        rewrite bool_decide_false by assumption. exact Hp'.
Qed.

Lemma classify_in_no_match table u :
  (forall c p, In p (triggers_in table c) -> Py.contains p u = false) ->
  NoDup (map fst table) ->
  classify_in table u = UNKNOWN.
Proof.
  induction table as [|[k ps] rest IH]; simpl; intros Hnone Hnd.
  - reflexivity.
  - inversion Hnd as [|k0 l0 Hk Hnd']; subst k0 l0.
    assert (Py.any_in ps u = false) as ->.
    { apply any_in_false. intros q Hq. apply (Hnone k).
      unfold triggers_in; simpl.
      rewrite bool_decide_true by reflexivity. exact Hq. }
    apply IH; auto. intros c p Hp. apply (Hnone c).
    unfold triggers_in; simpl. case_bool_decide as Hkc; [|exact Hp].
    subst k. exfalso. apply Hk.
    destruct (triggers_in_position _ _ _ Hp) as [i Hi].
    eapply position_in_keys; eauto.
Qed.

(** The loop returns a key of the table or falls through to [UNKNOWN]. *)
Lemma classify_in_range table u :
  classify_in table u = UNKNOWN \/ In (classify_in table u) (map fst table).
Proof.
  induction table as [|[k ps] rest IH]; simpl; [now left|].
  destruct (Py.any_in ps u); [right; now left | tauto].
Qed.

Lemma command_patterns_keys :
  declared_order =
  [TIME; DATE; WEATHER; SEARCH; OPEN_APP; VOLUME; MUSIC; INFO; SMART_HOME;
   REMINDER; NOTE].
Proof. reflexivity. Qed.

Lemma command_patterns_NoDup : NoDup (map fst command_patterns).
Proof.
  apply (bool_decide_unpack _). vm_compute. exact I.
Qed.

(** The order is that of the table, and the first match wins even when a
    later category matches too. *)
Example earlier_examples :
  earlier TIME NOTE /\ earlier WEATHER SMART_HOME /\
  ~ earlier SEARCH DATE /\ ~ earlier SYSTEM NOTE /\ ~ earlier TIME TIME.
Proof. vm_compute. repeat split; try lia; tauto. Qed.

Example first_match_examples :
  classify_command "search the weather forecast" = WEATHER /\
  classify_command "set the temperature" = WEATHER /\
  classify_command "lock the door" = SMART_HOME /\
  classify_command "TIME date" = TIME /\
  classify_command "hello there" = UNKNOWN.
Proof. repeat split. Qed.

End Classifier.

(** For an utterance that is already lower-case, as [listen] delivers it,
    the text searched is the utterance itself. *)
Lemma classify_normalized (U : string) (C : CommandType) (p : string) :
  Py.lower U = U ->
  In p (triggers C) ->
  Py.contains p U = true ->
  (forall C' p', earlier C' C -> In p' (triggers C') ->
                 Py.contains p' U = false) ->
  classify_command U = C.
Proof.
  intros HU Hp Hc Hearly. unfold classify_command. rewrite HU.
  eapply classify_in_first_match; eauto using command_patterns_NoDup.
Qed.

(** Claim C1.  First match in the declared order: when the lower-cased
    utterance contains a trigger substring [p] of category [C] and no
    trigger substring of any category declared before [C], the classifier
    answers [C]. *)
Theorem classify_first_match (U : string) (C : CommandType) (p : string) :
  In p (triggers C) ->
  Py.contains p (Py.lower U) = true ->
  (forall C' p', earlier C' C -> In p' (triggers C') ->
                 Py.contains p' (Py.lower U) = false) ->
  classify_command U = C.
Proof.
  intros Hp Hc Hearly. unfold classify_command.
  eapply classify_in_first_match; eauto using command_patterns_NoDup.
Qed.

Lemma classify_first_match_witness :
  classify_command "look up rust" = SEARCH.
Proof.
  apply (classify_first_match "look up rust" SEARCH "look up").
  - simpl. tauto.
  - reflexivity.
  - intros C' p' He Hp'.
    destruct C'; vm_compute in He; try lia; try contradiction;
      simpl in Hp'; intuition (subst; reflexivity).
Defined.

(** Claim C5.  No match gives [UNKNOWN]: an utterance whose lower-cased
    text contains no trigger substring of any category is classified
    [UNKNOWN]; the classifier is a total function, so that is its only
    fall-back. *)
Theorem classify_no_match (U : string) :
  (forall C p, In p (triggers C) -> Py.contains p (Py.lower U) = false) ->
  classify_command U = UNKNOWN.
Proof.
  intros Hnone. unfold classify_command.
  apply classify_in_no_match; auto using command_patterns_NoDup.
Qed.

(** The empty utterance is such an utterance. *)
Lemma classify_no_match_witness : classify_command "" = UNKNOWN.
Proof.
  apply (classify_no_match "").
  intros C p Hp.
  destruct C; simpl in Hp; intuition (subst; reflexivity).
Defined.

(** Claim C9.  [SYSTEM] is unreachable: it has no trigger substrings and
    no entry in the dispatch table, and the classifier answers [UNKNOWN]
    or one of the eleven categories of the pattern table, never [SYSTEM]. *)
Theorem system_unreachable :
  triggers SYSTEM = [] /\
  (forall self, handlers self !! SYSTEM = None) /\
  forall U,
    classify_command U <> SYSTEM /\
    (classify_command U = UNKNOWN \/
     In (classify_command U)
        [TIME; DATE; WEATHER; SEARCH; OPEN_APP; VOLUME; MUSIC; INFO;
         SMART_HOME; REMINDER; NOTE]).
Proof.
  split; [reflexivity|]. split; [intros self; reflexivity|].
  intros U.
  pose proof (classify_in_range command_patterns (Py.lower U)) as H.
  fold (classify_command U) in H.
  change (map fst command_patterns) with declared_order in H.
  rewrite command_patterns_keys in H.
  split; [|exact H].
  destruct H as [H|H]; [rewrite H; discriminate|].
  intros E. rewrite E in H. simpl in H. intuition discriminate.
Qed.

(** ** Dispatch *)

Section Dispatch.

Context (w : World) (self : Handlers).

Lemma process_farewell command s :
  Py.any_in exit_words (Py.lower command) = true ->
  process w self command s =
  (with_io (classified w command s)
     {| tick := S (tick (io s));
        heard := heard (io s);
        trace := trace (io s)
                 ++ [Logged Info ("Command type: "
                                  +:+ value (classify_command command));
                     Spoken goodbye_text] |},
   inr false).
Proof.
  intros Hexit.
  unfold process, with_io, classified.
  generalize (classify_command command) as c; intros c.
  rewrite Hexit.
  unfold try_, bind, lift, now, append_history, log, speak, emit; simpl.
  rewrite <- app_assoc. reflexivity.
Qed.

(** What [process] does once the selected handler has run. *)
Lemma process_dispatch command s :
  Py.any_in exit_words (Py.lower command) = false ->
  process w self command s =
  match selected self command command (io (classified w command s)) with
  | (i, inr tt) => (with_io (classified w command s) i, inr true)
  | (i, inl e) =>
      if is_Exception e
      then (with_io (classified w command s)
              {| tick := tick i;
                 heard := heard i;
                 trace := trace i
                          ++ [Logged Error ("Command processing error: "
                                            +:+ msg e);
                              Spoken apology_text] |},
            inr true)
      else (with_io (classified w command s) i, inl e)
  end.
Proof.
  intros Hexit.
  unfold process, with_io, classified. fold (selected self command).
  generalize (selected self command) as h; intros h.
  generalize (classify_command command) as c; intros c.
  rewrite Hexit.
  unfold try_, bind, lift, now, append_history, log, speak, emit; simpl.
  destruct (h command _) as [i [e|[]]]; simpl; [|reflexivity].
  destruct (is_Exception e); simpl; [|reflexivity].
  rewrite <- app_assoc. reflexivity.
Qed.

End Dispatch.

Lemma exit_words_lower p : In p exit_words -> Py.lower p = p.
Proof. simpl. intuition (subst; reflexivity). Qed.

Lemma farewell_detected U p :
  In p exit_words ->
  Py.contains p U = true \/ Py.contains p (Py.lower U) = true ->
  Py.any_in exit_words (Py.lower U) = true.
Proof.
  intros Hp H. apply any_in_true. exists p. split; [exact Hp|].
  destruct H as [H|H]; [|exact H].
  apply contains_lower; auto using exit_words_lower.
Qed.

(** The claim C2 as the specification words it fails on the farewell
    itself: [process] has classified the command, and logged the category,
    before it looks for a farewell word. *)
Lemma goodbye_classified_first :
  ~ exit_checked_first fresh
      (fst (process quiet_world stub_processor "goodbye" fresh)).
Proof.
  intros H.
  apply (H UNKNOWN [classification_line UNKNOWN] []).
  - reflexivity.
  - left. reflexivity.
Qed.

(** Claim C2, amended.  An utterance that contains a farewell word, as
    given or once lower-cased, makes [process] return [False] whatever its
    category and whatever the handlers are: [process] appends the history
    entry, classifies the command and logs the category, then finds the
    farewell word, speaks the goodbye and returns without running any
    handler. *)
Theorem farewell_takes_precedence (w : World) (self : Handlers)
  (U p : string) (s : state) :
  In p exit_words ->
  Py.contains p U = true \/ Py.contains p (Py.lower U) = true ->
  process w self U s =
  (with_io (classified w U s)
     {| tick := S (tick (io s));
        heard := heard (io s);
        trace := trace (io s)
                 ++ [classification_line (classify_command U);
                     Spoken goodbye_text] |},
   inr false).
Proof.
  intros Hp H. apply process_farewell. eapply farewell_detected; eauto.
Qed.

Lemma farewell_takes_precedence_witness :
  process quiet_world stub_processor "Goodbye, and what time is it" fresh =
  (with_io (classified quiet_world "Goodbye, and what time is it" fresh)
     {| tick := 1; heard := 0;
        trace := [classification_line TIME; Spoken goodbye_text] |},
   inr false).
Proof.
  apply (farewell_takes_precedence quiet_world stub_processor
           "Goodbye, and what time is it" "goodbye" fresh).
  - simpl. tauto.
  - right. reflexivity.
Defined.

(** Claim C3.  A failure of the selected handler stays inside [process]:
    when the command holds no farewell word and the handler selected for
    it raises an [Exception], [process] logs the error, speaks the generic
    apology and returns [True]; nothing is raised to the caller. *)
Theorem handler_failure_contained (w : World) (self : Handlers)
  (U : string) (s : state) (i : io_state) (e : exn) :
  Py.any_in exit_words (Py.lower U) = false ->
  selected self U U (io (classified w U s)) = (i, inl e) ->
  is_Exception e = true ->
  process w self U s =
  (with_io (classified w U s)
     {| tick := tick i;
        heard := heard i;
        trace := trace i
                 ++ [Logged Error ("Command processing error: " +:+ msg e);
                     Spoken apology_text] |},
   inr true).
Proof.
  intros Hexit Hraise He.
  rewrite process_dispatch by exact Hexit.
  rewrite Hraise, He. reflexivity.
Qed.

Lemma handler_failure_contained_witness :
  process quiet_world stub_processor "what day is it" fresh =
  (with_io (classified quiet_world "what day is it" fresh)
     {| tick := 1; heard := 0;
        trace := [classification_line DATE;
                  Logged Error "Command processing error: integration down";
                  Spoken apology_text] |},
   inr true).
Proof.
  apply (handler_failure_contained quiet_world stub_processor
           "what day is it" fresh
           (io (classified quiet_world "what day is it" fresh))
           (Raise OtherException "integration down")).
  - reflexivity.
  - reflexivity.
  - reflexivity.
Defined.

(** The boundary of the clause: a [KeyboardInterrupt] out of the handler is
    not an [Exception]; it leaves [process] and reaches the [break] of the
    main loop. *)
Lemma interrupt_leaves_process (w : World) (self : Handlers) (U : string)
  (s : state) (i : io_state) (e : exn) :
  Py.any_in exit_words (Py.lower U) = false ->
  selected self U U (io (classified w U s)) = (i, inl e) ->
  is_Exception e = false ->
  process w self U s = (with_io (classified w U s) i, inl e).
Proof.
  intros Hexit Hraise He.
  rewrite process_dispatch by exact Hexit.
  rewrite Hraise, He. reflexivity.
Qed.

(** ** The history *)

Section History.

Context (w : World) (self : Handlers).

Lemma keeps_ret {A} (a : A) : keeps_history (ret a).
Proof. intros s. reflexivity. Qed.

Lemma keeps_lift {A} (m : IO A) : keeps_history (lift m).
Proof. intros s. unfold lift. destruct (m (io s)). reflexivity. Qed.

Lemma keeps_set_running b : keeps_history (set_running b).
Proof. intros s. reflexivity. Qed.

Lemma keeps_get_running : keeps_history get_running.
Proof. intros s. reflexivity. Qed.

Lemma keeps_append_history e : keeps_history (append_history e).
Proof. intros s. simpl. now apply prefix_app_r. Qed.

Lemma keeps_bind {A B} (m : M A) (k : A -> M B) :
  keeps_history m -> (forall a, keeps_history (k a)) ->
  keeps_history (bind m k).
Proof.
  intros Hm Hk s. unfold bind. specialize (Hm s).
  destruct (m s) as [s' [e|a]]; simpl in *; [exact Hm|].
  etransitivity; [exact Hm | apply Hk].
Qed.

Lemma keeps_try {A} (body : M A) clauses :
  keeps_history body ->
  Forall (fun cl => forall e, keeps_history (snd cl e)) clauses ->
  keeps_history (try_ body clauses).
Proof.
  intros Hb Hcl s. unfold try_. specialize (Hb s).
  destruct (body s) as [s' [e|a]]; simpl in *; [|exact Hb].
  etransitivity; [exact Hb|]. clear Hb.
  induction Hcl as [|[accepts h] rest Hh _ IH]; simpl.
  - reflexivity.
  - destruct (accepts e); [apply Hh | exact IH].
Qed.

(** Walk the structure of a monadic program: [rule] handles the
    combinators, the rest opens binders, clause lists and conditionals. *)
Ltac by_structure rule :=
  repeat first
    [ rule
    | progress intros
    | match goal with
      | |- Forall _ _ => constructor
      | |- _ (if ?b then _ else _) => destruct b
      end ].

Lemma keeps_main_loop wake fuel : keeps_history (main_loop w self wake fuel).
Proof.
  induction fuel as [|fuel IH]; simpl;
    by_structure ltac:(first
      [ exact IH
      | apply keeps_ret | apply keeps_lift | apply keeps_set_running
      | apply keeps_get_running | apply keeps_append_history
      | apply keeps_bind | apply keeps_try ]).
Qed.

Lemma keeps_run wake fuel : keeps_history (run w self wake fuel).
Proof.
  unfold run;
    by_structure ltac:(first
      [ apply keeps_main_loop
      | apply keeps_ret | apply keeps_lift | apply keeps_set_running
      | apply keeps_bind | apply keeps_try ]).
Qed.

(** [process] appends exactly its entry, however it ends. *)
Lemma process_history command s :
  command_history (fst (process w self command s)) =
  command_history s ++ [history_entry (clock w (tick (io s))) command].
Proof.
  destruct (Py.any_in exit_words (Py.lower command)) eqn:Hexit.
  - rewrite process_farewell by exact Hexit. reflexivity.
  - rewrite process_dispatch by exact Hexit.
    destruct (selected self command command _) as [i [e|[]]];
      [destruct (is_Exception e)|]; reflexivity.
Qed.

End History.

(** The claim C4 as the specification words it fails on any command: the
    entry [process] appends for "what time is it" has no field for the
    category [TIME] the command resolves to. *)
Lemma history_entry_omits_category :
  exists e,
    command_history
      (fst (process quiet_world stub_processor "what time is it" fresh))
    = [e] /\
    ~ records_category e (classify_command "what time is it").
Proof.
  exists (history_entry afternoon "what time is it").
  split; [reflexivity|].
  intros [k [H|H]]; unfold history_entry in H;
    apply lookup_insert_Some in H as [[_ H]|[_ H]]; try discriminate;
    apply lookup_singleton_Some in H as [_ H]; discriminate.
Qed.

(** Claim C4, amended.  Every call of [process] appends one entry to the
    history, and the entry has exactly two fields: the timestamp read at
    the start of the call and the raw utterance (the category is not
    stored).  The entries already there are kept in place, by [process]
    and by the whole session loop. *)
Theorem history_is_append_only (w : World) (self : Handlers) (U : string)
  (s : state) :
  exists e : gmap string pyval,
    command_history (fst (process w self U s)) = command_history s ++ [e] /\
    e !! "timestamp" = Some (VDatetime (clock w (tick (io s)))) /\
    e !! "command" = Some (VStr U) /\
    dom e = {[ "timestamp"; "command" ]} /\
    forall wake_words fuel,
      command_history s
        `prefix_of` command_history (fst (run w self wake_words fuel s)).
Proof.
  exists (history_entry (clock w (tick (io s))) U).
  split; [apply process_history|].
  split; [reflexivity|]. split; [reflexivity|].
  split.
  - unfold history_entry. rewrite dom_insert_L, dom_singleton_L. reflexivity.
  - intros wake fuel. apply keeps_run.
Qed.

(** ** The two scenarios *)

Lemma clock_text_formatted h m :
  h < 24 -> m < 60 -> is_formatted_time (clock_text h m) = true.
Proof.
  intros Hh Hm.
  assert (forallb (fun h => forallb (fun m => is_formatted_time (clock_text h m))
                              (seq 0 60)) (seq 0 24) = true) as Hall
    by (vm_compute; reflexivity).
  rewrite forallb_forall in Hall.
  specialize (Hall h). rewrite forallb_forall in Hall.
  apply Hall; apply in_seq; lia.
Qed.

(** Claim C6.  The search scenario: "search for rust programming" is
    classified [SEARCH], [process] selects the search handler for it, the
    query that handler extracts is "rust programming", and the handler
    opens the search page for that query and announces it (or, when the
    browser call raises an [Exception], apologises). *)
Theorem search_scenario :
  classify_command "search for rust programming" = SEARCH /\
  (forall i, extract_query "search for rust programming" i
             = (i, inr "rust programming")) /\
  forall w ext,
    selected (processor w ext) "search for rust programming"
    = _handle_search w /\
    forall i,
      _handle_search w "search for rust programming" i =
      match browser w "https://www.google.com/search?q=rust programming" with
      | None =>
          ({| tick := tick i; heard := heard i;
              trace := trace i
                ++ [Opened "https://www.google.com/search?q=rust programming";
                    Spoken "I've opened search results for rust programming"]
           |}, inr tt)
      | Some e =>
          if is_Exception e
          then ({| tick := tick i; heard := heard i;
                   trace := trace i
                     ++ [Logged Error ("Search handler error: " +:+ msg e);
                         Spoken "Sorry, I couldn't perform the search."] |},
                inr tt)
          else (i, inl e)
      end.
Proof.
  split; [reflexivity|]. split; [intros i; reflexivity|].
  intros w ext. split; [reflexivity|].
  intros [tk hd tr].
  lazy -[app is_Exception msg browser].
  destruct (browser w _) as [e|]; [destruct (is_Exception e)|].
  - rewrite <- app_assoc. reflexivity.
  - reflexivity.
  - rewrite <- app_assoc. reflexivity.
Qed.

(** Claim C7.  The time scenario: "what time is it" is classified [TIME];
    [process] speaks "It's " followed by the current time in the format
    hh:mm AM/PM and returns [True]. *)
Theorem time_scenario (w : World) (ext : CommandType -> handler) (s : state) :
  valid_datetime (clock w (S (tick (io s)))) ->
  classify_command "what time is it" = TIME /\
  exists time_str,
    is_formatted_time time_str = true /\
    process w (processor w ext) "what time is it" s =
    (with_io (classified w "what time is it" s)
       {| tick := S (S (tick (io s)));
          heard := heard (io s);
          trace := trace (io s)
                   ++ [classification_line TIME;
                       Spoken ("It's " +:+ time_str)] |},
     inr true).
Proof.
  intros [Hh Hm]. split; [reflexivity|].
  exists (strftime_I_M_p (clock w (S (tick (io s))))).
  split; [unfold strftime_I_M_p; apply clock_text_formatted; assumption|].
  rewrite process_dispatch by reflexivity.
  change (selected (processor w ext) "what time is it") with (_handle_time w).
  destruct s as [history running [tk hd tr]].
  lazy -[app strftime_I_M_p clock history_entry].
  rewrite <- app_assoc. reflexivity.
Qed.

Lemma time_scenario_witness :
  classify_command "what time is it" = TIME /\
  exists time_str,
    is_formatted_time time_str = true /\
    process quiet_world stub_processor "what time is it" fresh =
    (with_io (classified quiet_world "what time is it" fresh)
       {| tick := 2; heard := 0;
          trace := [classification_line TIME;
                    Spoken ("It's " +:+ time_str)] |},
     inr true).
Proof.
  apply (time_scenario quiet_world (fun _ => failing) fresh).
  unfold valid_datetime. simpl. lia.
Defined.

(** ** The session loop *)

Section Running.

Lemma bind_run {S A B} (m : ST S A) (k : A -> ST S B) s s' a :
  m s = (s', inr a) -> bind m k s = k a s'.
Proof. intros H. unfold bind. rewrite H. reflexivity. Qed.

Lemma try_run {S A} (body : ST S A) clauses s s' a :
  body s = (s', inr a) -> try_ body clauses s = (s', inr a).
Proof. intros H. unfold try_. rewrite H. reflexivity. Qed.

Lemma lift_run {A} (m : IO A) s i r :
  m (io s) = (i, r) -> lift m s = (with_io s i, r).
Proof. intros H. unfold lift. rewrite H. reflexivity. Qed.

Lemma is_a_class c e : is_a c e = true -> cls e = c.
Proof. unfold is_a. apply bool_decide_eq_true. Qed.

Context (w : World).

(** A timeout and unintelligible audio both make [listen] return [None],
    with nothing logged. *)
Lemma listen_nothing timeout phrase_limit i :
  timed_out (mic w (heard i) timeout phrase_limit)
  || unintelligible (mic w (heard i) timeout phrase_limit) = true ->
  listen w timeout phrase_limit i = (after_listen i, inr None).
Proof.
  unfold timed_out, unintelligible, listen, try_, bind, next_attempt,
    after_listen.
  destruct (mic w (heard i) timeout phrase_limit) as [rec g sx]; simpl.
  destruct rec as [[c m]|]; simpl.
  - rewrite orb_false_r. intros H. apply is_a_class in H. simpl in H.
    subst c. reflexivity.
  - destruct g as [[c m]|t]; simpl; [|discriminate].
    intros H. apply is_a_class in H. simpl in H. subst c. reflexivity.
Qed.

(** Audio the first recognizer transcribes: [listen] returns the text in
    lower case, and logs it when it is not empty. *)
Lemma listen_recognized timeout phrase_limit i text :
  recorded (mic w (heard i) timeout phrase_limit) = None ->
  google (mic w (heard i) timeout phrase_limit) = inr text ->
  listen w timeout phrase_limit i =
  ({| tick := tick i;
      heard := S (heard i);
      trace := if truthy (Some (Py.lower text))
               then trace i ++ [Logged Info ("Recognized: "
                                             +:+ Py.lower text)]
               else trace i |},
   inr (Some (Py.lower text))).
Proof.
  unfold listen, try_, bind, next_attempt.
  destruct (mic w (heard i) timeout phrase_limit) as [rec g sx]; simpl.
  intros -> ->. simpl.
  generalize (Py.lower text) as t; intros t.
  destruct t; reflexivity.
Qed.

Context (self : Handlers) (wake_words : list string).

Lemma main_loop_stopped fuel s :
  is_running s = false ->
  main_loop w self wake_words fuel s = (s, inr true).
Proof.
  intros H. destruct fuel; simpl; unfold bind, get_running; rewrite H;
    reflexivity.
Qed.

Lemma main_loop_next fuel s s' :
  is_running s = true ->
  loop_body w self wake_words s = (s', inr false) ->
  main_loop w self wake_words (S fuel) s
  = main_loop w self wake_words fuel s'.
Proof.
  intros Hrun Hbody. simpl. unfold bind at 1, get_running. rewrite Hrun.
  unfold bind at 1. rewrite Hbody. reflexivity.
Qed.

Lemma loop_body_nothing s :
  (forall t l, timed_out (mic w (heard (io s)) t l)
               || unintelligible (mic w (heard (io s)) t l) = true) ->
  loop_body w self wake_words s = (with_io s (after_listen (io s)), inr false).
Proof.
  intros Hmic. unfold loop_body.
  apply try_run.
  erewrite bind_run
    by (apply lift_run, listen_nothing, Hmic).
  reflexivity.
Qed.

Lemma handle_activation_nothing s :
  (forall t l, timed_out (mic w (heard (io s)) t l)
               || unintelligible (mic w (heard (io s)) t l) = true) ->
  handle_activation w self s =
  (with_io s
     {| tick := tick (io s);
        heard := S (heard (io s));
        trace := trace (io s)
                 ++ [Spoken "Yes, how can I help you?";
                     Spoken "I didn't hear anything. Please try again."] |},
   inr tt).
Proof.
  intros Hmic. unfold handle_activation.
  apply try_run.
  erewrite bind_run by (apply lift_run; reflexivity).
  erewrite bind_run
    by (apply lift_run, listen_nothing; simpl; apply Hmic).
  unfold truthy, lift, speak, emit, with_io, after_listen; simpl.
  rewrite <- app_assoc. reflexivity.
Qed.

End Running.

Lemma contains_nonempty p s :
  Py.contains p s = true -> p <> "" -> truthy (Some s) = true.
Proof.
  intros H Hp. destruct s; [|reflexivity].
  destruct p; [congruence | discriminate].
Qed.

Lemma exit_words_nonempty p : In p exit_words -> p <> "".
Proof. simpl. intuition (subst; discriminate). Qed.

(** A command with a farewell word, heard after the wake word, takes the
    running flag down. *)
Lemma handle_activation_farewell (w : World) (self : Handlers)
  (U p : string) (s : state) :
  In p exit_words ->
  Py.contains p (Py.lower U) = true ->
  recorded (mic w (heard (io s)) 5 10) = None ->
  google (mic w (heard (io s)) 5 10) = inr U ->
  exists s',
    handle_activation w self s = (s', inr tt) /\ is_running s' = false.
Proof.
  intros Hp Hc Hrec Hg.
  assert (truthy (Some (Py.lower U)) = true) as Htruthy
    by (eapply contains_nonempty; eauto using exit_words_nonempty).
  eexists. split.
  - unfold handle_activation. apply try_run.
    erewrite bind_run by (apply lift_run; reflexivity).
    erewrite bind_run
      by (apply lift_run, listen_recognized; simpl; eassumption).
    rewrite Htruthy. simpl default.
    erewrite bind_run.
    2:{ apply process_farewell. rewrite lower_idempotent.
        apply any_in_true. eauto. }
    reflexivity.
  - reflexivity.
Qed.

(** Claim C8.  Capture failures are absorbed: when the microphone times
    out or the audio is unintelligible, [listen] returns [None] without
    raising and without logging; the wake-word pass of the main loop then
    ends normally with the session still running and goes on to the next
    pass, and an activation that hears no command says so and returns,
    leaving the running flag as it was. *)
Theorem capture_failure_recovered (w : World) (self : Handlers)
  (wake_words : list string) (s : state) :
  (forall t l, timed_out (mic w (heard (io s)) t l)
               || unintelligible (mic w (heard (io s)) t l) = true) ->
  (forall t l, listen w t l (io s) = (after_listen (io s), inr None)) /\
  loop_body w self wake_words s
  = (with_io s (after_listen (io s)), inr false) /\
  (is_running s = true ->
   forall fuel,
     main_loop w self wake_words (S fuel) s
     = main_loop w self wake_words fuel (with_io s (after_listen (io s)))) /\
  handle_activation w self s =
  (with_io s
     {| tick := tick (io s);
        heard := S (heard (io s));
        trace := trace (io s)
                 ++ [Spoken "Yes, how can I help you?";
                     Spoken "I didn't hear anything. Please try again."] |},
   inr tt).
Proof.
  intros Hmic. repeat split.
  - intros t l. apply listen_nothing, Hmic.
  - apply loop_body_nothing, Hmic.
  - intros Hrun fuel. apply main_loop_next; [exact Hrun|].
    apply loop_body_nothing, Hmic.
  - apply handle_activation_nothing, Hmic.
Qed.

(** A timeout, then unintelligible audio: both passes leave the session
    running. *)
Lemma capture_failure_recovered_witness :
  (listen (scripted [silence]) 1 3 (io fresh)
   = (after_listen (io fresh), inr None)) /\
  (listen (scripted [garbled]) 5 10 (io fresh)
   = (after_listen (io fresh), inr None)).
Proof.
  split.
  - apply (capture_failure_recovered (scripted [silence]) stub_processor
             default_wake_words fresh).
    intros t l. reflexivity.
  - apply (capture_failure_recovered (scripted [garbled]) stub_processor
             default_wake_words fresh).
    intros t l. reflexivity.
Defined.

(** Claim C10.  The farewell test is substring containment on the
    lower-cased utterance: whenever that text contains "goodbye", "exit",
    "quit" or "bye" anywhere, even inside a longer word, [process] returns
    [False]; heard as the command of an activation, it takes the running
    flag down, and the main loop is left at once so that [run] goes on to
    [shutdown]. *)
Theorem farewell_substring_ends_session (w : World) (self : Handlers)
  (wake_words : list string) (U p : string) (s : state) :
  In p exit_words ->
  Py.contains p (Py.lower U) = true ->
  snd (process w self U s) = inr false /\
  (recorded (mic w (heard (io s)) 5 10) = None ->
   google (mic w (heard (io s)) 5 10) = inr U ->
   exists s',
     handle_activation w self s = (s', inr tt) /\
     is_running s' = false /\
     forall fuel, main_loop w self wake_words fuel s' = (s', inr true)).
Proof.
  intros Hp Hc. split.
  - rewrite process_farewell; [reflexivity|].
    apply any_in_true. eauto.
  - intros Hrec Hg.
    destruct (handle_activation_farewell w self U p s Hp Hc Hrec Hg)
      as [s' [Hs' Hdown]].
    exists s'. repeat split; auto.
    intros fuel. apply main_loop_stopped, Hdown.
Qed.

(** "quite" contains "quit". *)
Lemma farewell_substring_ends_session_witness :
  snd (process quiet_world stub_processor "That is quite enough" fresh)
  = inr false.
Proof.
  apply (farewell_substring_ends_session quiet_world stub_processor
           default_wake_words "That is quite enough" "quit" fresh).
  - simpl. tauto.
  - reflexivity.
Defined.

(** ** Two sessions, run *)

(** Silence, noise, the wake word, then a command with "quite" in it: the
    session says goodbye and shuts down. *)
Example quite_ends_the_session :
  let r := run (scripted [silence; garbled; says "Hey Ron";
                          says "That is quite enough"; says "hey ron"])
             stub_processor default_wake_words 10 fresh in
  snd r = inr (Some tt) /\
  is_running (fst r) = false /\
  trace (io (fst r)) =
  [Spoken "Hello! I'm Ron, your AI assistant. Say 'Hey Ron' to activate me.";
   Logged Info "Recognized: hey ron";
   Spoken "Yes, how can I help you?";
   Logged Info "Recognized: that is quite enough";
   Logged Info "Command type: unknown";
   Spoken "Goodbye! It was nice talking to you.";
   Logged Info "Shutting down Ron AI...";
   SavedPreferences;
   StoppedTts;
   Spoken "Ron shutting down. Goodbye!";
   Logged Info "Ron AI shutdown complete"].
Proof. vm_compute. auto. Qed.

(** The wake word followed by silence, twice: the session is still
    running when the six passes are over. *)
Example silence_keeps_the_session :
  let r := run (scripted [silence; garbled; says "Hey Ron"; silence;
                          says "hey ron"])
             stub_processor default_wake_words 6 fresh in
  snd r = inr None /\
  is_running (fst r) = true /\
  command_history (fst r) = [] /\
  trace (io (fst r)) =
  [Spoken "Hello! I'm Ron, your AI assistant. Say 'Hey Ron' to activate me.";
   Logged Info "Recognized: hey ron";
   Spoken "Yes, how can I help you?";
   Spoken "I didn't hear anything. Please try again.";
   Logged Info "Recognized: hey ron";
   Spoken "Yes, how can I help you?";
   Spoken "I didn't hear anything. Please try again."].
Proof. vm_compute. auto. Qed.

(** * Further properties *)

(** The date format and [replace] on a few inputs, as CPython answers
    them. *)
Example date_examples :
  map (fun ymd : nat * nat * nat =>
         strftime_A_B_d_Y {| year := fst (fst ymd); month := snd (fst ymd);
                             day := snd ymd; hour := 9; minute := 5;
                             second := 3 |})
      [(2024, 5, 17); (2000, 2, 29); (1999, 12, 31); (2026, 11, 4);
       (1970, 1, 1); (2100, 3, 1)]
  = ["Friday, May 17, 2024"; "Tuesday, February 29, 2000";
     "Friday, December 31, 1999"; "Wednesday, November 04, 2026";
     "Thursday, January 01, 1970"; "Monday, March 01, 2100"].
Proof. vm_compute. reflexivity. Qed.

Example replace_examples :
  PyStr.replace " " "_" "a b  c" = "a_b__c" /\
  PyStr.replace "aa" "b" "aaa" = "ba" /\
  PyStr.replace "" "_" "abc" = "_a_b_c_" /\
  PyStr.replace "" "_" "" = "_".
Proof. repeat split. Qed.

(** ** Splitting and stripping *)

Section Splitting.

Lemma sapp_nil_l b : "" +:+ b = b.
Proof. reflexivity. Qed.

Lemma sapp_cons x a b : String x a +:+ b = String x (a +:+ b).
Proof. reflexivity. Qed.

Lemma sapp_assoc a b c : (a +:+ b) +:+ c = a +:+ b +:+ c.
Proof.
  induction a as [|x a IH]; [reflexivity|].
  now rewrite !sapp_cons, IH.
Qed.

Lemma sapp_nil_r a : a +:+ "" = a.
Proof.
  induction a as [|x a IH]; [reflexivity|]. now rewrite sapp_cons, IH.
Qed.

Lemma length_sapp a b :
  String.length (a +:+ b) = String.length a + String.length b.
Proof.
  induction a as [|x a IH]; [reflexivity|].
  rewrite sapp_cons. simpl. now rewrite IH.
Qed.

Lemma startswith_refl p b : Py.startswith p (p +:+ b) = true.
Proof. apply startswith_spec. eauto. Qed.

Lemma contains_app p a b :
  Py.contains p b = true -> Py.contains p (a +:+ b) = true.
Proof.
  intros H. apply contains_spec in H as [x [y ->]].
  apply contains_spec. exists (a +:+ x), y. now rewrite sapp_assoc.
Qed.

Lemma contains_app_l p a b :
  Py.contains p a = true -> Py.contains p (a +:+ b) = true.
Proof.
  intros H. apply contains_spec in H as [x [y ->]].
  apply contains_spec. exists x, (y +:+ b). now rewrite !sapp_assoc.
Qed.

Lemma contains_length p s :
  Py.contains p s = true -> String.length p <= String.length s.
Proof.
  intros H. apply contains_spec in H as [x [y ->]].
  rewrite !length_sapp. lia.
Qed.

Lemma split_go_nonempty sep k cur s : Py.split_go sep k cur s <> [].
Proof.
  revert k cur. induction s as [|c s IH]; intros k cur; simpl.
  - discriminate.
  - destruct k; [|apply IH].
    destruct (Py.startswith sep (String c s)); [discriminate | apply IH].
Qed.

(** Passing over the rest of an occurrence. *)
Lemma split_go_skip sep cur a b :
  Py.split_go sep (String.length a) cur (a +:+ b) = Py.split_go sep 0 cur b.
Proof.
  induction a as [|x a IH]; [reflexivity|].
  rewrite sapp_cons. simpl. exact IH.
Qed.

(** The scan at an occurrence of the separator. *)
Lemma split_go_found sep cur rest :
  sep <> "" ->
  Py.split_go sep 0 cur (sep +:+ rest) = cur :: Py.split_go sep 0 "" rest.
Proof.
  intros Hsep. destruct sep as [|c sep]; [congruence|].
  change (String c sep +:+ rest) with (String c (sep +:+ rest)).
  cbn [Py.split_go].
  change (String c (sep +:+ rest)) with (String c sep +:+ rest).
  rewrite startswith_refl.
  cbn [String.length]. rewrite Nat.sub_succ, Nat.sub_0_r.
  now rewrite split_go_skip.
Qed.

(** The scan at a character where no occurrence starts. *)
Lemma split_go_step sep cur c s :
  Py.startswith sep (String c s) = false ->
  Py.split_go sep 0 cur (String c s)
  = Py.split_go sep 0 (cur +:+ String c "") s.
Proof. intros H. cbn [Py.split_go]. now rewrite H. Qed.

(** No occurrence of [sep] in [cur +:+ s] starts inside [cur]. *)
Local Abbreviation clear_of sep cur s :=
  (forall a b : string,
      cur = a +:+ b -> b <> "" -> Py.startswith sep (b +:+ s) = false).

Lemma clear_of_nil sep s : clear_of sep "" s.
Proof.
  intros a b H Hb. destruct a; [|discriminate].
  rewrite sapp_nil_l in H. congruence.
Qed.

Lemma clear_of_contains sep cur s :
  sep <> "" -> clear_of sep cur s -> Py.contains sep cur = false.
Proof.
  intros Hsep Hclear. destruct (Py.contains sep cur) eqn:E; [|reflexivity].
  apply contains_spec in E as [a [b ->]].
  specialize (Hclear a (sep +:+ b) eq_refl).
  rewrite sapp_assoc, startswith_refl in Hclear.
  apply Hclear. destruct sep; [congruence | discriminate].
Qed.

Lemma sapp_snoc_inv cur c a b :
  cur +:+ String c "" = a +:+ b -> b <> "" ->
  exists b0, b = b0 +:+ String c "" /\ cur = a +:+ b0.
Proof.
  revert a. induction cur as [|x cur IH]; intros a H Hb.
  - destruct a as [|y a].
    + exists "". rewrite !sapp_nil_l in *. auto.
    + rewrite sapp_nil_l, sapp_cons in H. injection H as _ H.
      destruct a; destruct b; try discriminate; congruence.
  - destruct a as [|y a].
    + exists (String x cur). rewrite !sapp_nil_l in *. auto.
    + rewrite !sapp_cons in H. injection H as -> H.
      destruct (IH _ H Hb) as [b0 [-> ->]].
      exists b0. split; reflexivity.
Qed.

Lemma clear_of_step sep cur c s :
  clear_of sep cur (String c s) ->
  Py.startswith sep (String c s) = false ->
  clear_of sep (cur +:+ String c "") s.
Proof.
  intros Hclear Hs a b H Hb.
  destruct (sapp_snoc_inv _ _ _ _ H Hb) as [b0 [-> ->]].
  rewrite sapp_assoc, sapp_cons, sapp_nil_l.
  destruct b0 as [|y b0]; [exact Hs|].
  apply (Hclear a (String y b0)); [reflexivity | discriminate].
Qed.

(** Every piece of a split is free of the separator. *)
Lemma split_go_pieces sep :
  sep <> "" ->
  forall n s cur,
    String.length s <= n -> clear_of sep cur s ->
    Forall (fun p => Py.contains sep p = false) (Py.split_go sep 0 cur s).
Proof.
  intros Hsep n. induction n as [n IH] using lt_wf_ind.
  intros s cur Hn Hclear. destruct s as [|c s].
  - constructor; [|constructor]. eapply clear_of_contains; eauto.
  - destruct (Py.startswith sep (String c s)) eqn:E.
    + apply startswith_spec in E as [rest E]. rewrite E, split_go_found by auto.
      constructor; [eapply clear_of_contains; eauto|].
      assert (String.length rest < String.length (String c s)).
      { rewrite E, length_sapp. destruct sep; [congruence | simpl; lia]. }
      apply (IH (String.length rest)); [lia | lia | apply clear_of_nil].
    + rewrite split_go_step by exact E. simpl in Hn.
      apply (IH (String.length s)); [lia | lia |].
      now apply clear_of_step.
Qed.

(** The pieces joined by the separator give the text back. *)
Lemma split_go_join sep :
  sep <> "" ->
  forall n s cur,
    String.length s <= n ->
    String.concat sep (Py.split_go sep 0 cur s) = cur +:+ s.
Proof.
  intros Hsep n. induction n as [n IH] using lt_wf_ind.
  intros s cur Hn. destruct s as [|c s].
  - simpl. now rewrite sapp_nil_r.
  - destruct (Py.startswith sep (String c s)) eqn:E.
    + apply startswith_spec in E as [rest E]. rewrite E, split_go_found by auto.
      assert (String.length rest < String.length (String c s)).
      { rewrite E, length_sapp. destruct sep; [congruence | simpl; lia]. }
      pose proof (IH (String.length rest) ltac:(lia) rest "" ltac:(lia)) as HI.
      pose proof (split_go_nonempty sep 0 "" rest) as Hne.
      destruct (Py.split_go sep 0 "" rest) as [|p ps]; [congruence|].
      cbn [String.concat]. cbn [String.concat] in HI.
      rewrite HI. reflexivity.
    + rewrite split_go_step by exact E. simpl in Hn.
      rewrite (IH (String.length s)) by lia.
      now rewrite sapp_assoc.
Qed.

(** Where the last piece lies: with no occurrence the text is the only
    piece; otherwise there are at least two pieces and the last one is
    what follows an occurrence of the separator. *)
Lemma split_go_last sep :
  sep <> "" ->
  forall n s cur,
    String.length s <= n -> clear_of sep cur s ->
    (Py.contains sep (cur +:+ s) = false
     /\ Py.split_go sep 0 cur s = [cur +:+ s])
    \/ (exists front pre l,
          Py.split_go sep 0 cur s = front ++ [l] /\ front <> []
          /\ cur +:+ s = pre +:+ sep +:+ l).
Proof.
  intros Hsep n. induction n as [n IH] using lt_wf_ind.
  intros s cur Hn Hclear. destruct s as [|c s].
  - left. rewrite sapp_nil_r. split; [|reflexivity].
    eapply clear_of_contains; eauto.
  - destruct (Py.startswith sep (String c s)) eqn:E.
    + right. apply startswith_spec in E as [rest E].
      rewrite E, split_go_found by auto.
      assert (String.length rest < String.length (String c s)).
      { rewrite E, length_sapp. destruct sep; [congruence | simpl; lia]. }
      destruct (IH (String.length rest) ltac:(lia) rest "" ltac:(lia)
                  (clear_of_nil _ _))
        as [[_ ->]|[front [pre [l [-> [_ Hl]]]]]].
      * exists [cur], cur, rest.
        split; [reflexivity|]. split; [discriminate | reflexivity].
      * exists (cur :: front), (cur +:+ sep +:+ pre), l.
        split; [reflexivity|]. split; [discriminate|].
        rewrite sapp_nil_l in Hl. rewrite Hl, !sapp_assoc. reflexivity.
    + rewrite split_go_step by exact E. simpl in Hn.
      destruct (IH (String.length s) ltac:(lia) s (cur +:+ String c "")
                  ltac:(lia) (clear_of_step _ _ _ _ Hclear E))
        as [[Hc ->]|[front [pre [l [-> [Hf Hl]]]]]].
      * left. rewrite sapp_assoc in *. auto.
      * right. exists front, pre, l. rewrite sapp_assoc in Hl. auto.
Qed.

End Splitting.

Section SplitAndStrip.

Lemma string_nonempty_length (s : string) : s <> "" -> 0 < String.length s.
Proof. destruct s; [congruence | simpl; lia]. Qed.

(** [s.split(sep)] when [sep] occurs: at least two pieces, and the last
    one is what follows an occurrence of [sep] and holds none itself. *)
Lemma split_found sep s :
  sep <> "" -> Py.contains sep s = true ->
  exists parts pre l,
    Py.split sep s = Some parts /\ Py.last_item parts = Some l
    /\ 1 < length parts /\ s = pre +:+ sep +:+ l
    /\ Py.contains sep l = false.
Proof.
  intros Hsep Hc.
  assert (forall a b : string,
             "" = a +:+ b -> b <> "" -> Py.startswith sep (b +:+ s) = false)
    as Hclear.
  { intros a b H Hb. destruct a; [|discriminate].
    rewrite sapp_nil_l in H. congruence. }
  pose proof (split_go_pieces sep Hsep _ s "" (le_n _) Hclear) as Hall.
  destruct (split_go_last sep Hsep _ s "" (le_n _) Hclear)
    as [[Hno _]|[front [pre [l [Hsplit [Hfront Hl]]]]]].
  - rewrite sapp_nil_l in Hno. congruence.
  - exists (front ++ [l]), pre, l.
    unfold Py.split, Py.last_item. rewrite Hsplit in *.
    destruct sep; [congruence|].
    split; [reflexivity|]. split; [apply last_snoc|].
    split; [|split; [exact Hl|]].
    + rewrite length_app. simpl. destruct front; [congruence | simpl; lia].
    + apply Forall_app in Hall as [_ Hall]. now inversion Hall.
Qed.

(** [s.split(sep)] when [sep] does not occur: the text, whole. *)
Lemma split_absent sep s :
  sep <> "" -> Py.contains sep s = false -> Py.split sep s = Some [s].
Proof.
  intros Hsep Hc.
  assert (forall a b : string,
             "" = a +:+ b -> b <> "" -> Py.startswith sep (b +:+ s) = false)
    as Hclear.
  { intros a b H Hb. destruct a; [|discriminate].
    rewrite sapp_nil_l in H. congruence. }
  destruct (split_go_last sep Hsep _ s "" (le_n _) Hclear)
    as [[_ Hsplit]|[front [pre [l [_ [_ Hl]]]]]].
  - unfold Py.split. rewrite Hsplit. destruct sep; [congruence | reflexivity].
  - rewrite sapp_nil_l in Hl.
    assert (Py.contains sep s = true) by (apply contains_spec; eauto).
    congruence.
Qed.

Lemma lstrip_suffix s : exists a, s = a +:+ Py.lstrip s.
Proof.
  induction s as [|c s [a IH]]; simpl.
  - exists "". reflexivity.
  - destruct (Py.isspace c).
    + exists (String c a). rewrite sapp_cons. now f_equal.
    + exists "". reflexivity.
Qed.

Lemma rstrip_prefix s : exists b, s = Py.rstrip s +:+ b.
Proof.
  induction s as [|c s [b IH]]; simpl.
  - exists "". reflexivity.
  - destruct (Py.rstrip s) as [|x r] eqn:E.
    + destruct (Py.isspace c).
      * exists (String c s). reflexivity.
      * exists s. reflexivity.
    + exists b. rewrite sapp_cons. now f_equal.
Qed.

(** [s.strip()] is a part of [s]. *)
Lemma strip_inside s : exists a b, s = a +:+ Py.strip s +:+ b.
Proof.
  destruct (lstrip_suffix s) as [a Ha].
  destruct (rstrip_prefix (Py.lstrip s)) as [b Hb].
  exists a, b. unfold Py.strip. now rewrite <- Hb.
Qed.

Lemma strip_length s : String.length (Py.strip s) <= String.length s.
Proof.
  destruct (strip_inside s) as [a [b H]].
  rewrite H at 2. rewrite !length_sapp. lia.
Qed.

Lemma contains_strip p s :
  Py.contains p (Py.strip s) = true -> Py.contains p s = true.
Proof.
  intros H. destruct (strip_inside s) as [a [b Hs]]. rewrite Hs.
  apply contains_app, contains_app_l, H.
Qed.

(** The loop over the terms, when [term] is the first that occurs: the
    result is what follows an occurrence of [term], stripped, and that
    rest holds no further [term]. *)
Lemma after_first_term_found terms l1 term q :
  tried_before terms l1 term -> term <> "" ->
  Py.any_in l1 q = false -> Py.contains term q = true ->
  exists pre tail,
    q = pre +:+ term +:+ tail /\ Py.contains term tail = false
    /\ after_first_term terms q = ret (Py.strip tail).
Proof.
  intros [l2 ->] Hterm Hl1 Hc.
  destruct (split_found term q Hterm Hc)
    as [parts [pre [tail [Hsplit [Hlast [_ [Hq Htail]]]]]]].
  exists pre, tail. split; [exact Hq|]. split; [exact Htail|].
  pose proof (proj1 (any_in_false _ _) Hl1) as Hnone. clear Hl1.
  induction l1 as [|t l1 IH]; simpl.
  - rewrite Hc, Hsplit. unfold Py.last_item in *.
    unfold bind, of_option, ret. cbv beta iota. rewrite Hlast. reflexivity.
  - rewrite (Hnone t) by now left.
    apply IH. intros p Hp. apply Hnone. now right.
Qed.

(** The loop over the terms, when none occurs: the text is left as it
    is. *)
Lemma after_first_term_absent terms q :
  Py.any_in terms q = false -> after_first_term terms q = ret q.
Proof.
  intros H0. pose proof (proj1 (any_in_false _ _) H0) as H. clear H0.
  induction terms as [|t terms IH]; simpl; [reflexivity|].
  rewrite (H t) by now left. apply IH. intros p Hp. apply H. now right.
Qed.

(** Some term of a list occurs: there is a first one. *)
Lemma first_term_exists terms q :
  Py.any_in terms q = true ->
  exists l1 term,
    tried_before terms l1 term /\ Py.any_in l1 q = false
    /\ Py.contains term q = true.
Proof.
  induction terms as [|t terms IH]; simpl; [discriminate|].
  destruct (Py.contains t q) eqn:E.
  - intros _. exists [], t. split; [exists terms; reflexivity | auto].
  - simpl. intros H. destruct (IH H) as [l1 [term [[l2 ->] [Hl1 Hc]]]].
    exists (t :: l1), term. split; [exists l2; reflexivity|].
    split; [|exact Hc]. simpl. now rewrite E.
Qed.

End SplitAndStrip.

(** ** The classifier, the other way round *)

Section ClassifierConverse.

Implicit Types (table : list (CommandType * list string)) (u : string).

Lemma triggers_in_cons_ne k ps table c :
  k <> c -> triggers_in ((k, ps) :: table) c = triggers_in table c.
Proof.
  intros H. unfold triggers_in. simpl. now rewrite bool_decide_false.
Qed.

Lemma triggers_in_cons_eq k ps table : triggers_in ((k, ps) :: table) k = ps.
Proof. unfold triggers_in. simpl. now rewrite bool_decide_true. Qed.

(** What the loop returns was matched, and nothing before it was. *)
Lemma classify_in_sound table u c :
  NoDup (map fst table) ->
  classify_in table u = c -> c <> UNKNOWN ->
  (exists p, In p (triggers_in table c) /\ Py.contains p u = true) /\
  (forall c' p', earlier_in table c' c -> In p' (triggers_in table c') ->
                 Py.contains p' u = false).
Proof.
  induction table as [|[k ps] rest IH]; simpl; intros Hnd Hc Hne.
  - congruence.
  - inversion Hnd as [|k0 l0 Hk Hnd']; subst k0 l0.
    destruct (Py.any_in ps u) eqn:E.
    + subst c. rewrite triggers_in_cons_eq. split.
      * apply any_in_true in E. exact E.
      * intros c' p' He. unfold earlier_in in He. simpl in He.
        rewrite (bool_decide_true (k = k)) in He by reflexivity.
        destruct (bool_decide (k = c')); simpl in He;
          [lia | destruct (position_in rest c'); simpl in He;
                 [lia | contradiction]].
    + destruct (IH Hnd' Hc Hne) as [[p [Hp Hcp]] Hearly].
      assert (k <> c) as Hkc.
      { intros ->. apply Hk.
        destruct (triggers_in_position _ _ _ Hp) as [i Hi].
        eapply position_in_keys; eauto. }
      rewrite triggers_in_cons_ne by exact Hkc. split; [eauto|].
      intros c' p' He Hp'.
      destruct (decide (k = c')) as [<-|Hkc'].
      * rewrite triggers_in_cons_eq in Hp'.
        pose proof (proj1 (any_in_false _ _) E) as Hps. auto.
      * rewrite triggers_in_cons_ne in Hp' by exact Hkc'.
        apply (Hearly c' p'); [|exact Hp'].
        unfold earlier_in in *. simpl in He.
        rewrite !bool_decide_false in He by assumption.
        destruct (position_in rest c'); simpl in He; [|contradiction].
        destruct (position_in rest c); simpl in He; [lia | contradiction].
Qed.

(** The loop falls through only when nothing matches. *)
Lemma classify_in_unknown table u :
  ~ In UNKNOWN (map fst table) ->
  classify_in table u = UNKNOWN ->
  forall c p, In p (triggers_in table c) -> Py.contains p u = false.
Proof.
  induction table as [|[k ps] rest IH]; simpl; intros Hk Hc c p Hp.
  - destruct Hp.
  - destruct (Py.any_in ps u) eqn:E; [tauto|].
    destruct (decide (k = c)) as [<-|Hkc].
    + rewrite triggers_in_cons_eq in Hp.
      pose proof (proj1 (any_in_false _ _) E) as Hps. auto.
    + rewrite triggers_in_cons_ne in Hp by exact Hkc.
      eapply IH; eauto.
Qed.

Lemma UNKNOWN_has_no_patterns : ~ In UNKNOWN (map fst command_patterns).
Proof. simpl. intuition discriminate. Qed.

End ClassifierConverse.

(** Property X1.  What the classifier answers was really said: when an
    utterance is given a category other than [UNKNOWN], its lower-cased
    text contains a trigger substring of that category and none of any
    category declared before it. *)
Theorem classify_sound (U : string) (C : CommandType) :
  classify_command U = C -> C <> UNKNOWN ->
  (exists p, In p (triggers C) /\ Py.contains p (Py.lower U) = true) /\
  (forall C' p', earlier C' C -> In p' (triggers C') ->
                 Py.contains p' (Py.lower U) = false).
Proof.
  intros HC Hne. apply classify_in_sound; auto using command_patterns_NoDup.
Qed.

Lemma classify_sound_witness :
  (exists p, In p (triggers MUSIC)
             /\ Py.contains p (Py.lower "Play Music, please") = true) /\
  (forall C' p', earlier C' MUSIC -> In p' (triggers C') ->
                 Py.contains p' (Py.lower "Play Music, please") = false).
Proof.
  apply (classify_sound "Play Music, please" MUSIC).
  - reflexivity.
  - discriminate.
Defined.

(** Property X2.  [UNKNOWN] means exactly that nothing matched: the
    classifier answers [UNKNOWN] if and only if no trigger substring of
    any category occurs in the lower-cased utterance. *)
Theorem classify_unknown_iff (U : string) :
  classify_command U = UNKNOWN <->
  (forall C p, In p (triggers C) -> Py.contains p (Py.lower U) = false).
Proof.
  split.
  - intros H. apply classify_in_unknown;
      auto using UNKNOWN_has_no_patterns.
  - intros H. apply classify_in_no_match;
      auto using command_patterns_NoDup.
Qed.

(** Property X3.  Words around a command never make it unknown and never
    move it to a later category: if [U] is given the category [C], then
    [U] with any text before and after it is given [C] or a category
    declared before [C]. *)
Theorem classify_in_context (U a b : string) (C : CommandType) :
  classify_command U = C -> C <> UNKNOWN ->
  classify_command (a +:+ U +:+ b) <> UNKNOWN /\
  ~ earlier C (classify_command (a +:+ U +:+ b)).
Proof.
  intros HC Hne.
  destruct (classify_in_sound command_patterns (Py.lower U) C
              command_patterns_NoDup HC Hne) as [[p [Hp Hcp]] _].
  assert (Py.contains p (Py.lower (a +:+ U +:+ b)) = true) as Hin.
  { rewrite !lower_app. now apply contains_app, contains_app_l. }
  split.
  - intros Hun.
    pose proof (classify_in_unknown command_patterns _
                  UNKNOWN_has_no_patterns Hun C p Hp) as Hno.
    congruence.
  - intros He.
    destruct (decide (classify_command (a +:+ U +:+ b) = UNKNOWN)) as [E|E].
    + rewrite E in He. vm_compute in He.
      destruct C; contradiction.
    + destruct (classify_in_sound command_patterns _ _
                  command_patterns_NoDup eq_refl E) as [_ Hearly].
      specialize (Hearly C p He Hp). congruence.
Qed.

Lemma classify_in_context_witness :
  classify_command ("please " +:+ "open notepad" +:+ " at lunch time")
  <> UNKNOWN /\
  ~ earlier OPEN_APP
      (classify_command ("please " +:+ "open notepad" +:+ " at lunch time")).
Proof.
  apply (classify_in_context "open notepad" "please " " at lunch time"
           OPEN_APP).
  - reflexivity.
  - discriminate.
Defined.

(** ** [process], whatever the handlers *)

(** Property X4.  [process] returns [False] for the farewell words and for
    nothing else: its result is [False] if and only if the lower-cased
    command contains one of them. *)
Theorem process_stops_iff_farewell (w : World) (self : Handlers)
  (U : string) (s : state) :
  snd (process w self U s) = inr false <->
  Py.any_in exit_words (Py.lower U) = true.
Proof.
  split.
  - intros H. destruct (Py.any_in exit_words (Py.lower U)) eqn:E;
      [reflexivity|].
    rewrite process_dispatch in H by exact E.
    destruct (selected self U U _) as [i [e|[]]];
      [destruct (is_Exception e)|]; discriminate.
  - intros H. rewrite process_farewell by exact H. reflexivity.
Qed.

(** Property X5.  Whatever the handlers do, [process] raises no [Exception]
    and leaves the running flag alone. *)
Theorem process_contains_exceptions (w : World) (self : Handlers)
  (U : string) (s : state) :
  is_running (fst (process w self U s)) = is_running s /\
  forall e, snd (process w self U s) = inl e -> is_Exception e = false.
Proof.
  destruct (Py.any_in exit_words (Py.lower U)) eqn:E.
  - rewrite process_farewell by exact E. split; [reflexivity | discriminate].
  - rewrite process_dispatch by exact E.
    destruct (selected self U U _) as [i [e|[]]];
      [destruct (is_Exception e) eqn:He|];
      (split; [reflexivity|]); intros e' H; try discriminate.
    simpl in H. congruence.
Qed.

Lemma selected_cases (self : Handlers) (U : string) :
  selected self U =
  match classify_command U with
  | TIME => handle_time self | DATE => handle_date self
  | WEATHER => handle_weather self | SEARCH => handle_search self
  | OPEN_APP => handle_open_app self | VOLUME => handle_volume self
  | MUSIC => handle_music self | INFO => handle_info self
  | SMART_HOME => handle_smart_home self | REMINDER => handle_reminder self
  | NOTE => handle_note self
  | SYSTEM | UNKNOWN => handle_unknown self
  end.
Proof. unfold selected. destruct (classify_command U); reflexivity. Qed.

Lemma selected_absorbs (self : Handlers) (U : string) :
  all_absorb self -> absorbs (selected self U).
Proof.
  intros H. rewrite selected_cases.
  destruct (classify_command U); unfold all_absorb in H; tauto.
Qed.

(** Property X6.  With handlers that keep their failures to themselves, the
    [except] clause of [process] is never entered: for a command without
    farewell word, [process] does what the selected handler does and
    nothing more, and returns [True] unless a [KeyboardInterrupt] passes
    through. *)
Theorem process_adds_nothing (w : World) (self : Handlers) (U : string)
  (s : state) :
  all_absorb self ->
  Py.any_in exit_words (Py.lower U) = false ->
  process w self U s =
  (with_io (classified w U s)
     (fst (selected self U U (io (classified w U s)))),
   match snd (selected self U U (io (classified w U s))) with
   | inl e => inl e
   | inr _ => inr true
   end).
Proof.
  intros Habs Hexit. rewrite process_dispatch by exact Hexit.
  pose proof (selected_absorbs self U Habs U (io (classified w U s))) as Hsel.
  destruct (selected self U U _) as [i [e|[]]]; simpl; [|reflexivity].
  rewrite (Hsel i e eq_refl). reflexivity.
Qed.

(** ** The handlers keep their failures to themselves *)

Section Absorbing.

Lemma try_except_absorbs {A} (body : IO A) (h : exn -> IO A) i i' e :
  (forall e0 j j' e1, h e0 j = (j', inl e1) -> is_Exception e1 = false) ->
  try_ body [except_Exception h] i = (i', inl e) ->
  is_Exception e = false.
Proof.
  intros Hh. unfold try_. destruct (body i) as [j [e0|a]]; [|discriminate].
  simpl. destruct (is_Exception e0) eqn:E.
  - apply Hh.
  - unfold raise. intros H. congruence.
Qed.

Lemma log_speak_returns line text j j' (e1 : exn) :
  (log Error line ;; speak text) j = (j', inl e1) -> is_Exception e1 = false.
Proof. discriminate. Qed.

(** A handler whose body is wrapped in [try] with one [except Exception]
    clause that logs and speaks: [outer] is the fact about such a [try],
    [inner] the fact that the clause returns. *)
Ltac absorbing outer inner :=
  let H := fresh in
  intros ? ? ? ? H; unfold handler in *;
  eapply outer in H; [exact H|];
  intros ? ? ? ?; apply inner.

Context (w : World) (host : Host) (vault : Vault) (city : string).

Lemma absorbs_time : absorbs (_handle_time w).
Proof. absorbing @try_except_absorbs log_speak_returns. Qed.

Lemma absorbs_search : absorbs (_handle_search w).
Proof. absorbing @try_except_absorbs log_speak_returns. Qed.

Lemma absorbs_unknown : absorbs _handle_unknown.
Proof. intros command i i' e H. discriminate. Qed.

Lemma absorbs_date : absorbs (_handle_date w).
Proof. absorbing @try_except_absorbs log_speak_returns. Qed.

Lemma absorbs_weather : absorbs (_handle_weather host vault city).
Proof. absorbing @try_except_absorbs log_speak_returns. Qed.

Lemma absorbs_open_app : absorbs (_handle_open_app host).
Proof. absorbing @try_except_absorbs log_speak_returns. Qed.

Lemma absorbs_volume : absorbs (_handle_volume host).
Proof. absorbing @try_except_absorbs log_speak_returns. Qed.

Lemma absorbs_music : absorbs (_handle_music w).
Proof. absorbing @try_except_absorbs log_speak_returns. Qed.

Lemma absorbs_info : absorbs (_handle_info w).
Proof. absorbing @try_except_absorbs log_speak_returns. Qed.

Lemma absorbs_smart_home : absorbs _handle_smart_home.
Proof. absorbing @try_except_absorbs log_speak_returns. Qed.

Lemma absorbs_reminder : absorbs _handle_reminder.
Proof. absorbing @try_except_absorbs log_speak_returns. Qed.

Lemma absorbs_note : absorbs (_handle_note w host).
Proof. absorbing @try_except_absorbs log_speak_returns. Qed.

End Absorbing.

(** Property X7.  Each of the twelve handlers of [CommandProcessor] keeps
    every [Exception] to itself: whatever the clock, the browser, the
    machine, the key store and the weather service do, no handler raises
    an [Exception] to [process]. *)
Theorem assistant_handlers_absorb (w : World) (host : Host) (vault : Vault)
  (city : string) :
  all_absorb (assistant w host vault city).
Proof.
  unfold all_absorb, assistant; simpl.
  repeat split;
    auto using absorbs_time, absorbs_search, absorbs_unknown, absorbs_date,
      absorbs_weather, absorbs_open_app, absorbs_volume, absorbs_music,
      absorbs_info, absorbs_smart_home, absorbs_reminder, absorbs_note.
Qed.

Lemma process_adds_nothing_witness :
  process quiet_world (assistant quiet_world broken_box no_keys "New York")
    "open the calculator" fresh =
  (with_io (classified quiet_world "open the calculator" fresh)
     (and_then (io (classified quiet_world "open the calculator" fresh))
        [Logged Error
           "Failed to open calculator: No such file or directory: calculator";
         Spoken "I'm not sure which application to open."]),
   inr true).
Proof.
  apply (process_adds_nothing quiet_world
           (assistant quiet_world broken_box no_keys "New York")
           "open the calculator" fresh).
  - unfold all_absorb, assistant; simpl.
    repeat split;
      auto using absorbs_time, absorbs_search, absorbs_unknown, absorbs_date,
        absorbs_weather, absorbs_open_app, absorbs_volume, absorbs_music,
        absorbs_info, absorbs_smart_home, absorbs_reminder, absorbs_note.
  - reflexivity.
Defined.

(** ** What the handlers extract and say *)

Section Saying.

Lemma said_and_then i evs : said i (and_then i evs) = evs.
Proof. unfold said, and_then. simpl. apply drop_app_length. Qed.

Lemma said_same i : said i i = [].
Proof. unfold said. apply drop_all. Qed.



Lemma emit_and_then ev i : emit ev i = (and_then i [ev], inr tt).
Proof. reflexivity. Qed.

(** An external call, a word to the user, inside [try] with one clause
    that logs and apologises: the three ways it can end. *)
Lemma guarded_call (call : option exn) (text line sorry : string)
  (i : io_state) :
  try_ (external_ call ;; speak text)
       [except_Exception (fun e =>
          log Error (line +:+ msg e) ;; speak sorry)] i =
  match call with
  | None => (and_then i [Spoken text], inr tt)
  | Some e =>
      if is_Exception e
      then (and_then i [Logged Error (line +:+ msg e); Spoken sorry], inr tt)
      else (i, inl e)
  end.
Proof.
  unfold try_, bind, external_, raise, ret, log, speak, emit, and_then.
  destruct call as [e|]; simpl; [|reflexivity].
  destruct (is_Exception e); simpl; [|reflexivity].
  now rewrite <- app_assoc.
Qed.

Lemma search_terms_nonempty l1 term :
  tried_before search_terms l1 term -> term <> "".
Proof.
  intros [l2 H] ->.
  assert (In "" search_terms) as Hin by (rewrite H; apply in_elt).
  simpl in Hin. intuition discriminate.
Qed.

Lemma info_terms_nonempty l1 term :
  tried_before info_terms l1 term -> term <> "".
Proof.
  intros [l2 H] ->.
  assert (In "" info_terms) as Hin by (rewrite H; apply in_elt).
  simpl in Hin. intuition discriminate.
Qed.

Lemma tried_before_In terms l1 term :
  tried_before terms l1 term -> In term terms.
Proof. intros [l2 ->]. apply in_elt. Qed.

Context (w : World).

(** The search handler, given the query it extracts. *)
Lemma handle_search_with U q i :
  extract_query U = ret q ->
  _handle_search w U i =
  if negb (String.eqb q "") && negb (String.eqb q (Py.lower U))
  then match browser w ("https://www.google.com/search?q=" +:+ q) with
       | None =>
           (and_then i
              [Opened ("https://www.google.com/search?q=" +:+ q);
               Spoken ("I've opened search results for " +:+ q)],
            inr tt)
       | Some e =>
           if is_Exception e
           then (and_then i
                   [Logged Error ("Search handler error: " +:+ msg e);
                    Spoken "Sorry, I couldn't perform the search."],
                 inr tt)
           else (i, inl e)
       end
  else (and_then i [Spoken "What would you like me to search for?"], inr tt).
Proof.
  intros Hq. unfold _handle_search. rewrite Hq.
  generalize (Py.lower U) as u; intros u.
  unfold try_, bind, ret, external_, raise, log, speak, emit, and_then.
  cbv beta iota.
  destruct (negb (String.eqb q "") && negb (String.eqb q u));
    [|reflexivity].
  cbv zeta.
  destruct (browser w _) as [e|]; cbv beta iota.
  - cbn [pick_clause except_Exception fst snd].
    destruct (is_Exception e); cbn; [|reflexivity].
    now rewrite <- app_assoc.
  - cbn. now rewrite <- app_assoc.
Qed.

End Saying.

(** Property X8.  What the search handler searches for: when [term] is the
    first of its search terms to occur in the lower-cased command, the
    query is the text after an occurrence of [term], stripped, and that
    text holds no further [term]. *)
Theorem search_query_follows_term (U : string) (l1 : list string)
  (term : string) :
  tried_before search_terms l1 term ->
  Py.any_in l1 (Py.lower U) = false ->
  Py.contains term (Py.lower U) = true ->
  exists pre tail,
    Py.lower U = pre +:+ term +:+ tail /\
    Py.contains term tail = false /\
    extract_query U = ret (Py.strip tail).
Proof.
  intros Hterm Hl1 Hc. unfold extract_query.
  eapply after_first_term_found; eauto using search_terms_nonempty.
Qed.

Lemma search_query_follows_term_witness :
  exists pre tail,
    Py.lower "Google search for cats" = pre +:+ "search for" +:+ tail /\
    Py.contains "search for" tail = false /\
    extract_query "Google search for cats" = ret (Py.strip tail).
Proof.
  apply (search_query_follows_term "Google search for cats" [] "search for").
  - exists ["google"; "search"; "look up"; "find"]. reflexivity.
  - reflexivity.
  - reflexivity.
Defined.

(** Property X9.  The search handler opens nothing but searches for words
    that follow a search term: every URL it opens is the search page for
    a non-empty query, and that query is the stripped text after a search
    term of the command. *)
Theorem search_opens_only_after_term (w : World) (U : string)
  (i : io_state) (url : string) :
  In (Opened url) (said i (fst (_handle_search w U i))) ->
  exists term pre tail,
    In term search_terms /\
    Py.lower U = pre +:+ term +:+ tail /\
    Py.strip tail <> "" /\
    url = "https://www.google.com/search?q=" +:+ Py.strip tail.
Proof.
  destruct (Py.any_in search_terms (Py.lower U)) eqn:Hany.
  - destruct (first_term_exists _ _ Hany) as [l1 [term [Hb [Hl1 Hc]]]].
    destruct (after_first_term_found _ _ _ _ Hb
                (search_terms_nonempty _ _ Hb) Hl1 Hc)
      as [pre [tail [Hq [_ Hx]]]].
    rewrite (handle_search_with w U _ i Hx).
    destruct (String.eqb_spec (Py.strip tail) "") as [E|E]; simpl.
    + rewrite said_and_then. simpl. intuition discriminate.
    + destruct (negb _); simpl.
      * destruct (browser w _) as [e|];
          [destruct (is_Exception e)|]; simpl;
          rewrite ?said_and_then, ?said_same; simpl;
          try (intuition discriminate).
        intros [H|[H|[]]]; [|discriminate]. injection H as <-.
        exists term, pre, tail.
        split; [exact (tried_before_In _ _ _ Hb)|]. auto.
      * rewrite said_and_then. simpl. intuition discriminate.
  - rewrite (handle_search_with w U (Py.lower U) i)
      by (apply after_first_term_absent, Hany).
    rewrite String.eqb_refl. cbn [negb]. rewrite andb_false_r. cbn [fst].
    rewrite said_and_then. simpl. intuition discriminate.
Qed.

Lemma search_opens_only_after_term_witness :
  exists term pre tail,
    In term search_terms /\
    Py.lower "Look up the Higgs boson " = pre +:+ term +:+ tail /\
    Py.strip tail <> "" /\
    "https://www.google.com/search?q=the higgs boson"
    = "https://www.google.com/search?q=" +:+ Py.strip tail.
Proof.
  apply (search_opens_only_after_term quiet_world "Look up the Higgs boson "
           fresh_io).
  left. reflexivity.
Defined.

Section Info.

Lemma contains_char_cons c x s :
  Py.contains (String c "") (String x s)
  = Ascii.eqb c x || Py.contains (String c "") s.
Proof.
  cbn [Py.contains Py.startswith].
  destruct s; now rewrite andb_true_r.
Qed.

Lemma contains_char_app c a b :
  Py.contains (String c "") (a +:+ b)
  = Py.contains (String c "") a || Py.contains (String c "") b.
Proof.
  induction a as [|x a IH].
  - rewrite sapp_nil_l. reflexivity.
  - rewrite sapp_cons, !contains_char_cons, IH. now rewrite orb_assoc.
Qed.

Lemma concat_free_of_char c sep parts :
  Py.contains (String c "") sep = false ->
  Forall (fun p => Py.contains (String c "") p = false) parts ->
  Py.contains (String c "") (String.concat sep parts) = false.
Proof.
  intros Hsep Hparts. induction Hparts as [|p ps Hp _ IH]; [reflexivity|].
  destruct ps as [|p' ps]; cbn [String.concat]; [exact Hp|].
  rewrite !contains_char_app, Hp, Hsep. exact IH.
Qed.

(** Replacing every space leaves no space. *)
Lemma replace_space_free s :
  Py.contains " " (PyStr.replace " " "_" s) = false.
Proof.
  unfold PyStr.replace, PyStr.join, Py.split.
  apply concat_free_of_char; [reflexivity|].
  apply (split_go_pieces " " ltac:(discriminate) _ s "" (le_n _)).
  intros a b H Hb. destruct a; [|discriminate].
  rewrite sapp_nil_l in H. congruence.
Qed.

Context (w : World).

(** The info handler, given the topic it extracts. *)
Lemma handle_info_with U topic i :
  extract_topic U = ret topic ->
  _handle_info w U i =
  if negb (String.eqb topic "") && negb (String.eqb topic (Py.lower U))
  then match browser w ("https://en.wikipedia.org/wiki/"
                        +:+ PyStr.replace " " "_" topic) with
       | None =>
           (and_then i
              [Opened ("https://en.wikipedia.org/wiki/"
                       +:+ PyStr.replace " " "_" topic);
               Spoken ("I've opened information about " +:+ topic)],
            inr tt)
       | Some e =>
           if is_Exception e
           then (and_then i
                   [Logged Error ("Info handler error: " +:+ msg e);
                    Spoken "Sorry, I couldn't find that information."],
                 inr tt)
           else (i, inl e)
       end
  else (and_then i [Spoken "What would you like to know about?"], inr tt).
Proof.
  intros Hq. unfold _handle_info. rewrite Hq.
  generalize (Py.lower U) as u; intros u.
  unfold try_, bind, ret, external_, raise, log, speak, emit, and_then.
  cbv beta iota.
  destruct (negb (String.eqb topic "") && negb (String.eqb topic u));
    [|reflexivity].
  cbv zeta.
  generalize (PyStr.replace " " "_" topic) as page; intros page.
  destruct (browser w _) as [e|]; cbv beta iota.
  - cbn [pick_clause except_Exception fst snd].
    destruct (is_Exception e); cbn; [|reflexivity].
    now rewrite <- app_assoc.
  - cbn. now rewrite <- app_assoc.
Qed.

Lemma extract_topic_total U : exists topic, extract_topic U = ret topic.
Proof.
  unfold extract_topic.
  destruct (Py.any_in info_terms (Py.lower U)) eqn:Hany.
  - destruct (first_term_exists _ _ Hany) as [l1 [term [Hb [Hl1 Hc]]]].
    destruct (after_first_term_found _ _ _ _ Hb
                (info_terms_nonempty _ _ Hb) Hl1 Hc)
      as [pre [tail [_ [_ Hx]]]].
    eauto.
  - exists (Py.lower U). now apply after_first_term_absent.
Qed.

End Info.

(** Property X10.  The page the info handler opens has no space in its
    address: every URL it opens is free of the space character, however
    many words the topic has. *)
Theorem info_url_has_no_space (w : World) (U : string) (i : io_state)
  (url : string) :
  In (Opened url) (said i (fst (_handle_info w U i))) ->
  Py.contains " " url = false.
Proof.
  destruct (extract_topic_total U) as [topic Ht].
  rewrite (handle_info_with w U topic i Ht).
  destruct (negb _ && negb _); cbn [fst].
  - destruct (browser w _) as [e|]; [destruct (is_Exception e)|];
      cbn [fst]; rewrite ?said_and_then, ?said_same; simpl;
      try (intuition discriminate).
    intros [H|[H|[]]]; [|discriminate]. injection H as <-.
    rewrite contains_char_app, replace_space_free. reflexivity.
  - rewrite said_and_then. simpl. intuition discriminate.
Qed.

Lemma info_url_has_no_space_witness :
  Py.contains " " "https://en.wikipedia.org/wiki/the__higgs_boson" = false.
Proof.
  apply (info_url_has_no_space quiet_world "What is the  Higgs boson"
           fresh_io).
  left. reflexivity.
Defined.

(** Property X11.  The temperature answer of the smart-home handler cannot
    be reached through the classifier: a command classified [SMART_HOME]
    does not contain "temperature" (such a command goes to the weather
    handler or before), so the handler never gives its temperature
    answer for it. *)
Theorem smart_home_never_temperature (U : string) (i : io_state) :
  classify_command U = SMART_HOME ->
  Py.contains "temperature" U = false /\
  ~ In (Spoken "Temperature control requires smart home integration.")
       (said i (fst (_handle_smart_home U i))).
Proof.
  intros HC.
  destruct (classify_in_sound command_patterns (Py.lower U) SMART_HOME
              command_patterns_NoDup HC ltac:(discriminate)) as [_ Hearly].
  assert (Py.contains "temperature" (Py.lower U) = false) as Hlow.
  { apply (Hearly WEATHER); [vm_compute; lia | simpl; tauto]. }
  assert (Py.contains "temperature" U = false) as Hraw.
  { destruct (Py.contains "temperature" U) eqn:E; [|reflexivity].
    apply contains_lower in E; [congruence | reflexivity]. }
  split; [exact Hraw|].
  unfold _handle_smart_home, try_, speak. rewrite Hraw.
  destruct (Py.contains "lights on" U);
    [|destruct (Py.contains "lights off" U)];
    rewrite emit_and_then; cbn [fst]; rewrite said_and_then;
    simpl; intuition discriminate.
Qed.

Lemma smart_home_never_temperature_witness :
  Py.contains "temperature" "unlock the door" = false /\
  ~ In (Spoken "Temperature control requires smart home integration.")
       (said fresh_io (fst (_handle_smart_home "unlock the door" fresh_io))).
Proof.
  apply (smart_home_never_temperature "unlock the door" fresh_io).
  reflexivity.
Defined.

(** ** Volume *)

Section Volume.

Lemma unmute_contains_mute U :
  Py.contains "unmute" U = true -> Py.contains "mute" U = true.
Proof.
  intros H. apply contains_spec in H as [a [b ->]].
  apply contains_spec. exists (a +:+ "un"), b.
  rewrite sapp_assoc. reflexivity.
Qed.

Context (host : Host).

(** The chain runs at most one system command and says one of three
    things; its fourth branch is never taken. *)
Lemma volume_chain_cases up down mute unmute U :
  volume_chain host up down mute unmute U = ret tt \/
  exists cmd text,
    In text ["Volume increased"; "Volume decreased"; "Muted"] /\
    volume_chain host up down mute unmute U
    = (external_ (os_system host cmd) ;; speak text).
Proof.
  unfold volume_chain.
  destruct (Py.contains "up" U || Py.contains "increase" U);
    [right; eexists _, _; split; [|reflexivity]; simpl; tauto|].
  destruct (Py.contains "down" U || Py.contains "decrease" U);
    [right; eexists _, _; split; [|reflexivity]; simpl; tauto|].
  destruct (Py.contains "mute" U) eqn:Hmute;
    [right; eexists _, _; split; [|reflexivity]; simpl; tauto|].
  destruct (Py.contains "unmute" U) eqn:Hun; [|now left].
  apply unmute_contains_mute in Hun. congruence.
Qed.

Lemma guarded_nothing (line sorry : string) (i : io_state) :
  try_ (ret tt)
       [except_Exception (fun e =>
          log Error (line +:+ msg e) ;; speak sorry)] i = (i, inr tt).
Proof. reflexivity. Qed.

Lemma guarded_speak (text line sorry : string) (i : io_state) :
  try_ (speak text)
       [except_Exception (fun e =>
          log Error (line +:+ msg e) ;; speak sorry)] i
  = (and_then i [Spoken text], inr tt).
Proof. reflexivity. Qed.

End Volume.

(** Property X12.  The volume handler never says "Unmuted": a command that
    contains "unmute" also contains "mute", and the test for "mute" comes
    first, so the unmute branch is never taken on any platform. *)
Theorem volume_never_says_unmuted (host : Host) (U : string)
  (i : io_state) :
  ~ In (Spoken "Unmuted") (said i (fst (_handle_volume host U i))).
Proof.
  unfold _handle_volume.
  assert (forall up down mute unmute,
    ~ In (Spoken "Unmuted")
        (said i (fst (try_ (volume_chain host up down mute unmute U)
          [except_Exception (fun e =>
             log Error ("Volume handler error: " +:+ msg e) ;;
             speak "Sorry, I couldn't control the volume.")] i)))) as Hchain.
  { intros up down mute unmute.
    destruct (volume_chain_cases host up down mute unmute U)
      as [->|[cmd [text [Htext ->]]]].
    - rewrite guarded_nothing. cbn [fst]. rewrite said_same. intros [].
    - rewrite guarded_call.
      destruct (os_system host cmd) as [e|]; [destruct (is_Exception e)|];
        cbn [fst]; rewrite ?said_and_then, ?said_same; simpl;
        simpl in Htext; intuition (subst; discriminate). }
  destruct (String.eqb (platform host) "win32"); [apply Hchain|].
  destruct (String.eqb (platform host) "darwin"); [apply Hchain|].
  rewrite guarded_speak. cbn [fst]. rewrite said_and_then.
  simpl. intuition discriminate.
Qed.

(** Property X13.  Asked to unmute, the volume handler mutes: on Windows a
    command that contains "unmute" and none of "up", "increase", "down",
    "decrease" runs the mute command and says "Muted". *)
Theorem volume_unmute_mutes (host : Host) (U : string) (i : io_state) :
  platform host = "win32" ->
  Py.contains "unmute" U = true ->
  Py.any_in ["up"; "increase"; "down"; "decrease"] U = false ->
  _handle_volume host U i =
  match os_system host "nircmd.exe mutesysvolume 1" with
  | None => (and_then i [Spoken "Muted"], inr tt)
  | Some e =>
      if is_Exception e
      then (and_then i
              [Logged Error ("Volume handler error: " +:+ msg e);
               Spoken "Sorry, I couldn't control the volume."],
            inr tt)
      else (i, inl e)
  end.
Proof.
  intros Hwin Hun Hnone.
  pose proof (proj1 (any_in_false _ _) Hnone) as Hno.
  unfold _handle_volume, volume_chain. rewrite Hwin.
  rewrite (Hno "up"), (Hno "increase"), (Hno "down"), (Hno "decrease")
    by (simpl; tauto).
  rewrite (unmute_contains_mute U Hun).
  cbn [String.eqb Ascii.eqb Bool.eqb andb orb].
  apply guarded_call.
Qed.

Lemma volume_unmute_mutes_witness :
  _handle_volume windows_box "unmute the sound" fresh_io
  = (and_then fresh_io [Spoken "Muted"], inr tt).
Proof.
  apply (volume_unmute_mutes windows_box "unmute the sound" fresh_io).
  - reflexivity.
  - reflexivity.
  - reflexivity.
Defined.

(** Property X14.  A volume command without a direction gets no answer: on
    Windows and macOS, a command that contains none of "up", "increase",
    "down", "decrease" and "mute" makes the handler return without
    running or saying anything. *)
Theorem volume_without_direction_is_silent (host : Host) (U : string)
  (i : io_state) :
  platform host = "win32" \/ platform host = "darwin" ->
  Py.any_in ["up"; "increase"; "down"; "decrease"; "mute"] U = false ->
  _handle_volume host U i = (i, inr tt).
Proof.
  intros Hplat Hnone.
  pose proof (proj1 (any_in_false _ _) Hnone) as Hno.
  assert (Py.contains "unmute" U = false) as Hun.
  { destruct (Py.contains "unmute" U) eqn:E; [|reflexivity].
    apply unmute_contains_mute in E. rewrite (Hno "mute") in E by (simpl; tauto).
    discriminate. }
  unfold _handle_volume, volume_chain.
  rewrite (Hno "up"), (Hno "increase"), (Hno "down"), (Hno "decrease"),
    (Hno "mute"), Hun by (simpl; tauto).
  destruct Hplat as [-> | ->]; reflexivity.
Qed.

Lemma volume_without_direction_is_silent_witness :
  classify_command "sound check" = VOLUME /\
  _handle_volume windows_box "sound check" fresh_io = (fresh_io, inr tt).
Proof.
  split; [reflexivity|].
  apply (volume_without_direction_is_silent windows_box "sound check"
           fresh_io).
  - left. reflexivity.
  - reflexivity.
Defined.

(** ** Opening applications *)

Section OpenApp.

Context (host : Host).

Lemma open_first_none table U i :
  Py.any_in (map fst table) (Py.lower U) = false ->
  open_first host table U i = (i, inr false).
Proof.
  intros H0. pose proof (proj1 (any_in_false _ _) H0) as H. clear H0.
  induction table as [|[name cmds] rest IH]; simpl; [reflexivity|].
  rewrite (H name) by (simpl; tauto).
  apply IH. intros p Hp. apply H. simpl. tauto.
Qed.


End OpenApp.

(** Property X15.  An application the handler has no entry for: when the
    lower-cased command names none of calculator, notepad, browser,
    terminal and settings, the open-app handler launches nothing and says
    it is not sure which application to open. *)
Theorem open_app_unknown_application (host : Host) (U : string)
  (i : io_state) :
  Py.any_in (map fst apps) (Py.lower U) = false ->
  _handle_open_app host U i =
  (and_then i [Spoken "I'm not sure which application to open."], inr tt).
Proof.
  intros H. unfold _handle_open_app, try_, bind.
  rewrite (open_first_none host apps U i H). reflexivity.
Qed.

Lemma open_app_unknown_application_witness :
  classify_command "open spotify" = OPEN_APP /\
  _handle_open_app linux_box "open spotify" fresh_io =
  (and_then fresh_io [Spoken "I'm not sure which application to open."],
   inr tt).
Proof.
  split; [reflexivity|].
  apply (open_app_unknown_application linux_box "open spotify" fresh_io).
  reflexivity.
Defined.



(** ** Reminders, notes, weather and keys *)

(** Property X17.  The reminder handler repeats what follows "remind me
    to": for a command that contains the phrase, it speaks the stripped
    text after an occurrence of it (text that holds no further "remind me
    to"), also when that text is empty, and nothing else happens. *)
Theorem reminder_echoes_what_follows (U : string) :
  Py.contains "remind me to" U = true ->
  exists pre tail,
    U = pre +:+ "remind me to" +:+ tail /\
    Py.contains "remind me to" tail = false /\
    forall i,
      _handle_reminder U i =
      (and_then i
         [Spoken ("I'll remind you to " +:+ Py.strip tail
                  +:+ ". Note: Reminder system needs to be configured.")],
       inr tt).
Proof.
  intros Hc.
  destruct (split_found "remind me to" U ltac:(discriminate) Hc)
    as [parts [pre [tail [Hsplit [Hlast [_ [HU Htail]]]]]]].
  exists pre, tail. split; [exact HU|]. split; [exact Htail|].
  intros i. unfold _handle_reminder. rewrite Hc, Hsplit.
  unfold Py.last_item in *.
  unfold try_, bind, of_option, ret. cbv beta iota. rewrite Hlast.
  reflexivity.
Qed.

Lemma reminder_echoes_what_follows_witness :
  exists pre tail,
    "please remind me to " = pre +:+ "remind me to" +:+ tail /\
    Py.contains "remind me to" tail = false /\
    forall i,
      _handle_reminder "please remind me to " i =
      (and_then i
         [Spoken ("I'll remind you to " +:+ Py.strip tail
                  +:+ ". Note: Reminder system needs to be configured.")],
       inr tt).
Proof.
  apply (reminder_echoes_what_follows "please remind me to ").
  reflexivity.
Defined.

(** Property X18.  The note handler has its own words: a command whose
    lower-cased text contains none of "note that", "write down" and
    "remember" creates no file and is asked what to note down, even when
    the classifier sent it to the note handler for the word "note". *)
Theorem note_needs_its_own_terms (w : World) (host : Host) (U : string)
  (i : io_state) :
  Py.any_in note_terms (Py.lower U) = false ->
  _handle_note w host U i =
  (and_then i [Spoken "What would you like me to note down?"], inr tt).
Proof.
  intros H. unfold _handle_note, extract_note.
  rewrite (after_first_term_absent _ _ H).
  unfold try_, bind, ret. cbv beta iota.
  rewrite String.eqb_refl. cbn [negb]. rewrite andb_false_r.
  reflexivity.
Qed.

Lemma note_needs_its_own_terms_witness :
  classify_command "take a note buy milk" = NOTE /\
  _handle_note quiet_world broken_box "take a note buy milk" fresh_io =
  (and_then fresh_io [Spoken "What would you like me to note down?"],
   inr tt).
Proof.
  split; [reflexivity|].
  apply (note_needs_its_own_terms quiet_world broken_box
           "take a note buy milk" fresh_io).
  reflexivity.
Defined.

(** Property X19.  The city of a weather request never contains "in": when
    the command contains "in", the city asked for is the stripped text
    after an occurrence of "in" that holds no further "in"; the preferred
    city is not used, and a place whose name contains "in" cannot be
    asked for. *)
Theorem weather_city_after_in (city U : string) :
  Py.contains "in" U = true ->
  exists pre tail,
    U = pre +:+ "in" +:+ tail /\
    weather_city city U = ret (Py.strip tail) /\
    Py.contains "in" (Py.strip tail) = false.
Proof.
  intros Hc.
  destruct (split_found "in" U ltac:(discriminate) Hc)
    as [parts [pre [tail [Hsplit [Hlast [Hlen [HU Htail]]]]]]].
  exists pre, tail. split; [exact HU|]. split.
  - unfold weather_city. rewrite Hc, Hsplit.
    unfold Py.last_item in *.
    unfold bind, of_option, ret. cbv beta iota.
    apply Nat.ltb_lt in Hlen. rewrite Hlen, Hlast. reflexivity.
  - destruct (Py.contains "in" (Py.strip tail)) eqn:E; [|reflexivity].
    apply contains_strip in E. congruence.
Qed.

Lemma weather_city_after_in_witness :
  exists pre tail,
    "what is the weather in berlin" = pre +:+ "in" +:+ tail /\
    weather_city "New York" "what is the weather in berlin"
    = ret (Py.strip tail) /\
    Py.contains "in" (Py.strip tail) = false.
Proof.
  apply (weather_city_after_in "New York" "what is the weather in berlin").
  reflexivity.
Defined.

(** Property X20.  Without a key there is no weather request: when the
    environment variable is unset or empty and there is no secrets file,
    the weather handler says the service is not configured, whatever the
    machine and the weather service would answer. *)
Theorem weather_needs_key (host : Host) (vault : Vault) (city U : string)
  (i : io_state) :
  truthy (environ_key vault "openweather") = false ->
  secrets_exists vault = false ->
  _handle_weather host vault city U i =
  (and_then i
     [Spoken "Weather service is not configured. Please set up your API key."],
   inr tt).
Proof.
  intros Henv Hfile.
  unfold _handle_weather, get_api_key, try_, bind, ret.
  rewrite Henv, Hfile. reflexivity.
Qed.

Lemma weather_needs_key_witness :
  _handle_weather linux_box no_keys "New York" "weather in paris" fresh_io =
  (and_then fresh_io
     [Spoken "Weather service is not configured. Please set up your API key."],
   inr tt).
Proof.
  apply (weather_needs_key linux_box no_keys "New York" "weather in paris"
           fresh_io).
  - reflexivity.
  - reflexivity.
Defined.

(** Property X21.  The environment comes first: a non-empty environment
    variable is the API key, and the secrets file is then not read, so
    that a file that cannot be parsed is not even reported. *)
Theorem api_key_from_environment (vault : Vault) (service : string)
  (i : io_state) :
  truthy (environ_key vault service) = true ->
  get_api_key vault service i = (i, inr (environ_key vault service)).
Proof.
  intros H. unfold get_api_key, try_, ret. rewrite H. reflexivity.
Qed.

Lemma api_key_from_environment_witness :
  get_api_key env_keys "openweather" fresh_io = (fresh_io, inr (Some "k-env")).
Proof.
  apply (api_key_from_environment env_keys "openweather" fresh_io).
  reflexivity.
Defined.

(** Property X22.  The secrets file as fall-back: with the environment
    variable unset or empty and the file present, the key is the file's
    entry for the service, [None] when it has none; a file that cannot
    be read or parsed is logged and counts as no key. *)
Theorem api_key_from_secrets (vault : Vault) (service : string)
  (i : io_state) :
  truthy (environ_key vault service) = false ->
  secrets_exists vault = true ->
  get_api_key vault service i =
  match secrets_load vault with
  | inr secrets => (i, inr (secrets !! service))
  | inl e =>
      if is_Exception e
      then (and_then i
              [Logged Error ("Failed to get API key for " +:+ service
                             +:+ ": " +:+ msg e)],
            inr None)
      else (i, inl e)
  end.
Proof.
  intros Henv Hfile. unfold get_api_key, try_, bind, ret, external, raise.
  rewrite Henv, Hfile.
  destruct (secrets_load vault) as [e|secrets]; [|reflexivity].
  cbn [pick_clause except_Exception fst snd].
  destruct (is_Exception e); reflexivity.
Qed.

Lemma api_key_from_secrets_witness :
  get_api_key broken_secrets "openweather" fresh_io =
  (and_then fresh_io
     [Logged Error "Failed to get API key for openweather: Expecting value"],
   inr None).
Proof.
  apply (api_key_from_secrets broken_secrets "openweather" fresh_io).
  - reflexivity.
  - reflexivity.
Defined.

(** ** Listening and the session loop, further *)


(** Property X23.  [listen] is safe to call: whatever the microphone and
    the recognizers do, it uses up exactly one capture, does not touch the
    clock, raises no [Exception], and any text it returns is in lower
    case. *)
Theorem listen_is_contained (w : World) (timeout phrase_limit : nat)
  (i : io_state) :
  heard (fst (listen w timeout phrase_limit i)) = S (heard i) /\
  tick (fst (listen w timeout phrase_limit i)) = tick i /\
  (forall e, snd (listen w timeout phrase_limit i) = inl e ->
             is_Exception e = false) /\
  (forall text, snd (listen w timeout phrase_limit i) = inr (Some text) ->
                Py.lower text = text).
Proof.
  unfold listen, try_, bind, next_attempt.
  destruct (mic w (heard i) timeout phrase_limit) as [rec g sx].
  cbn [recorded google sphinx].
  assert (forall t : string, Py.lower (Py.lower t) = Py.lower t) as Hlow
    by apply lower_idempotent.
  destruct rec as [[c m1]|].
  - destruct c; simpl; repeat split; intros; try discriminate;
      match goal with H : inl _ = inl _ |- _ =>
        injection H as <-; reflexivity end.
  - destruct g as [[c m2]|t].
    + destruct c; simpl;
        try (repeat split; intros; try discriminate;
             match goal with H : inl _ = inl _ |- _ =>
               injection H as <-; reflexivity end).
      destruct sx as [e3|t3]; simpl.
      * repeat split; intros; discriminate.
      * destruct (Py.lower t3) eqn:E3; simpl;
          repeat split; intros; try discriminate;
          match goal with H : inr _ = inr _ |- _ => injection H as <- end;
          rewrite <- E3; apply Hlow.
    + simpl. destruct (Py.lower t) eqn:E; simpl;
        repeat split; intros; try discriminate;
        match goal with H : inr _ = inr _ |- _ => injection H as <- end;
        rewrite <- E; apply Hlow.
Qed.

(** Property X24.  The offline fall-back and its bare [except]: when the
    first recognizer reports a request error, a warning is logged and the
    answer is that of the offline recognizer, in lower case; whatever the
    offline recognizer raises, a [KeyboardInterrupt] included, is
    swallowed and [listen] returns [None]. *)
Theorem listen_falls_back (w : World) (timeout phrase_limit : nat)
  (i : io_state) (m : string) :
  recorded (mic w (heard i) timeout phrase_limit) = None ->
  google (mic w (heard i) timeout phrase_limit)
  = inl (Raise RequestError m) ->
  listen w timeout phrase_limit i =
  match sphinx (mic w (heard i) timeout phrase_limit) with
  | inr text =>
      (and_then (after_listen i)
         (Logged Warning "Google recognition failed, trying alternatives..."
          :: if truthy (Some (Py.lower text))
             then [Logged Info ("Recognized: " +:+ Py.lower text)]
             else []),
       inr (Some (Py.lower text)))
  | inl _ =>
      (and_then (after_listen i)
         [Logged Warning "Google recognition failed, trying alternatives..."],
       inr None)
  end.
Proof.
  unfold listen, try_, bind, next_attempt, after_listen, and_then.
  destruct (mic w (heard i) timeout phrase_limit) as [rec g sx].
  cbn [recorded google sphinx]. intros -> ->. simpl.
  destruct sx as [e|t]; simpl; [reflexivity|].
  destruct (Py.lower t); simpl; [reflexivity|].
  now rewrite <- app_assoc.
Qed.

Lemma listen_falls_back_witness :
  listen (scripted [offline_interrupted]) 5 10 fresh_io =
  (and_then (after_listen fresh_io)
     [Logged Warning "Google recognition failed, trying alternatives..."],
   inr None).
Proof.
  apply (listen_falls_back (scripted [offline_interrupted]) 5 10 fresh_io
           "recognition connection failed").
  - reflexivity.
  - reflexivity.
Defined.

(** Property X25.  Speech without a wake word is only logged: when the
    wake-word pass hears text that contains none of the wake words, the
    pass ends with nothing spoken, no command processed, the history and
    the running flag as they were. *)
Theorem loop_ignores_other_speech (w : World) (self : Handlers)
  (wake_words : list string) (s : state) (text : string) :
  recorded (mic w (heard (io s)) 1 3) = None ->
  google (mic w (heard (io s)) 1 3) = inr text ->
  Py.any_in wake_words (Py.lower text) = false ->
  loop_body w self wake_words s =
  (with_io s
     (and_then (after_listen (io s))
        (if truthy (Some (Py.lower text))
         then [Logged Info ("Recognized: " +:+ Py.lower text)]
         else [])),
   inr false).
Proof.
  intros Hrec Hg Hwake. unfold loop_body.
  apply try_run.
  erewrite bind_run
    by (apply lift_run, listen_recognized; eassumption).
  change (default "" (Some (Py.lower text))) with (Py.lower text).
  rewrite Hwake.
  unfold and_then, after_listen, bind, ret, with_io. cbn.
  destruct (Py.lower text); cbn; rewrite ?app_nil_r; reflexivity.
Qed.

Lemma loop_ignores_other_speech_witness :
  loop_body (scripted [says "What time is it"]) stub_processor
    default_wake_words fresh =
  (with_io fresh
     (and_then (after_listen (io fresh))
        [Logged Info "Recognized: what time is it"]),
   inr false).
Proof.
  apply (loop_ignores_other_speech (scripted [says "What time is it"])
           stub_processor default_wake_words fresh "What time is it").
  - reflexivity.
  - reflexivity.
  - reflexivity.
Defined.

(** Property X26.  Ctrl-C while waiting for the wake word: the
    [KeyboardInterrupt] passes through [listen], the pass ends with
    [break], and the loop is left at once, with the running flag still
    up. *)
Theorem interrupt_breaks_loop (w : World) (self : Handlers)
  (wake_words : list string) (s : state) (m : string) (fuel : nat) :
  recorded (mic w (heard (io s)) 1 3) = Some (Raise KeyboardInterrupt m) ->
  is_running s = true ->
  main_loop w self wake_words (S fuel) s
  = (with_io s (after_listen (io s)), inr true) /\
  is_running (with_io s (after_listen (io s))) = true.
Proof.
  intros Hrec Hrun. split; [|exact Hrun].
  assert (listen w 1 3 (io s)
          = (after_listen (io s), inl (Raise KeyboardInterrupt m))) as Hl.
  { unfold listen, try_, bind, next_attempt, after_listen.
    destruct (mic w (heard (io s)) 1 3) as [rec g sx].
    cbn [recorded] in Hrec. subst rec. reflexivity. }
  cbn [main_loop]. unfold bind at 1, get_running. rewrite Hrun.
  unfold bind at 1, loop_body, try_, bind at 1.
  rewrite (lift_run _ _ _ _ Hl). reflexivity.
Qed.

Lemma interrupt_breaks_loop_witness :
  main_loop (scripted [interrupted]) stub_processor default_wake_words 3 fresh
  = (with_io fresh (after_listen (io fresh)), inr true) /\
  is_running (with_io fresh (after_listen (io fresh))) = true.
Proof.
  apply (interrupt_breaks_loop (scripted [interrupted]) stub_processor
           default_wake_words fresh "" 2).
  - reflexivity.
  - reflexivity.
Defined.

Section LoopTotal.

Context (w : World) (self : Handlers) (wake_words : list string).

(** A pass of the loop always ends normally: its two [except] clauses
    cover every exception. *)
Lemma loop_body_returns s :
  exists s' b, loop_body w self wake_words s = (s', inr b).
Proof.
  unfold loop_body, try_.
  match goal with |- context [?body s] =>
    destruct (body s) as [s1 [e|b]] end; [|eauto].
  cbn [pick_clause except_ except_Exception fst snd].
  unfold is_a, is_Exception.
  destruct (bool_decide (cls e = KeyboardInterrupt)); cbn; eauto.
Qed.

End LoopTotal.

(** Property X27.  The main loop never raises: whatever the handlers, the
    microphone and the recognizers do, every run of the loop ends
    normally, having been left or having used up its passes. *)
Theorem main_loop_never_raises (w : World) (self : Handlers)
  (wake_words : list string) (fuel : nat) (s : state) :
  exists s' b, main_loop w self wake_words fuel s = (s', inr b).
Proof.
  revert s. induction fuel as [|fuel IH]; intros s; cbn [main_loop].
  - unfold bind, get_running, ret. eauto.
  - unfold bind at 1, get_running. destruct (is_running s); [|unfold ret; eauto].
    destruct (loop_body_returns w self wake_words s) as [s1 [b Hb]].
    unfold bind. rewrite Hb. destruct b; [unfold ret; eauto | apply IH].
Qed.

(** Property X28.  A session in which nothing is ever heard: if every
    capture times out or is unintelligible, the assistant greets once and
    then stays silent and running, pass after pass; the history stays
    empty of new entries and each pass uses one capture. *)
Theorem silent_session (w : World) (self : Handlers)
  (wake_words : list string) (fuel : nat) (s : state) :
  (forall n t l, timed_out (mic w n t l) || unintelligible (mic w n t l)
                 = true) ->
  run w self wake_words fuel s =
  ({| command_history := command_history s;
      is_running := true;
      io := {| tick := tick (io s);
               heard := heard (io s) + fuel;
               trace := trace (io s)
                 ++ [Spoken "Hello! I'm Ron, your AI assistant. Say 'Hey Ron' to activate me."]
            |} |},
   inr None).
Proof.
  intros Hmic.
  assert (forall fuel s1, is_running s1 = true ->
            main_loop w self wake_words fuel s1 =
            ({| command_history := command_history s1;
                is_running := true;
                io := {| tick := tick (io s1);
                         heard := heard (io s1) + fuel;
                         trace := trace (io s1) |} |}, inr false)) as Hloop.
  { clear fuel s. induction fuel as [|fuel IH]; intros s1 Hrun.
    - cbn [main_loop]. unfold bind, get_running, ret. rewrite Hrun.
      destruct s1 as [h r [tk hd tr]]. cbn in *. subst r.
      rewrite Nat.add_0_r. reflexivity.
    - rewrite (main_loop_next w self wake_words fuel s1 _ Hrun
                 (loop_body_nothing w self wake_words s1
                    (fun t l => Hmic _ t l))).
      rewrite IH by exact Hrun.
      cbn. rewrite Nat.add_succ_r. reflexivity. }
  unfold run. apply try_run.
  unfold bind at 1, set_running. cbv beta iota.
  erewrite bind_run by (apply lift_run; reflexivity).
  erewrite bind_run by (apply Hloop; reflexivity).
  reflexivity.
Qed.

Lemma silent_session_witness :
  run quiet_world stub_processor default_wake_words 7 fresh =
  ({| command_history := [];
      is_running := true;
      io := {| tick := 0;
               heard := 7;
               trace :=
                 [Spoken "Hello! I'm Ron, your AI assistant. Say 'Hey Ron' to activate me."]
            |} |},
   inr None).
Proof.
  apply (silent_session quiet_world stub_processor default_wake_words 7
           fresh).
  intros n t l. unfold quiet_world, scripted. cbn [mic].
  destruct n; reflexivity.
Defined.




